(** * gmailAPI utilities: a shallow embedding of [utils.py]

    The development follows the layout of the Python module:

    - [Py]      the string primitives of Python, pandas and [re] that
                [utils.py] calls ([str.split], [str.lower], [str.endswith],
                [str.splitlines], [' '.join], ...);
    - [OS]      the file system seen through [os.path.exists], [os.listdir],
                [os.path.join] and [open];
    - [Base64]  [base64.urlsafe_b64encode] and its inverse;
    - [Mail]    the part of [email.message.EmailMessage] that the program
                drives ([set_content], [msg[k] = v], [add_attachment]);
    - [Utils]   the functions of [utils.py] themselves;
    - [Mime]    the serialized form of a message and its parser;
    - [Sample], [Cases]  small installations on which the functions can be
                run.

    Text is modelled at the byte level: a Python [str] is a [string] of
    8-bit characters and the case and white-space tables are the ASCII ones.
    Text files are read as ASCII; what [open(path).read()] makes of other
    bytes depends on the locale and is left out.  The [email] package
    renders a header value through its header factory, which is a parameter
    of the model.  Effects are explicit: every function that touches the
    file system or prints returns the trace of its events together with
    either a value or the exception it raised. *)

From Stdlib Require Import List String Ascii Strings.Byte Bool NArith ZArith Lia.
Import ListNotations.

Local Open Scope string_scope.
Local Open Scope list_scope.

(** ** Python string primitives *)

Module Py.

(** [s.split(sep)] for a separator matched one character at a time; the
    same function is [re.split] for a pattern that is an alternation of
    single-character classes.  The result is never empty and keeps empty
    fields. *)
Fixpoint split_by (p : ascii -> bool) (s : string) : list string :=
  match s with
  | EmptyString => [""]
  | String c s' =>
      if p c then "" :: split_by p s'
      else match split_by p s' with
           | [] => [String c ""]
           | h :: t => String c h :: t
           end
  end.

Definition split (sep : ascii) (s : string) : list string :=
  split_by (Ascii.eqb sep) s.

(** [x[-1]] on a list of strings ([split] never returns an empty list). *)
Definition last_item (l : list string) : string := List.last l "".

(** [sep.join(l)] *)
Definition join (sep : string) (l : list string) : string :=
  String.concat sep l.

Definition is_upper (c : ascii) : bool :=
  let n := N_of_ascii c in (65 <=? n)%N && (n <=? 90)%N.

Definition lower_char (c : ascii) : ascii :=
  if is_upper c then ascii_of_N (N_of_ascii c + 32) else c.

(** [s.lower()] *)
Fixpoint lower (s : string) : string :=
  match s with
  | EmptyString => EmptyString
  | String c s' => String (lower_char c) (lower s')
  end.

(** White space as [str.isspace] and the [\s] class see it on 8-bit text:
    TAB, LF, VT, FF, CR, FS, GS, RS, US and SPACE. *)
Definition is_space (c : ascii) : bool :=
  let n := N_of_ascii c in
  ((9 <=? n)%N && (n <=? 13)%N) || ((28 <=? n)%N && (n <=? 32)%N).

Definition nonempty (s : string) : bool :=
  match s with EmptyString => false | _ => true end.

(** [s.split()] with no argument: fields between runs of white space,
    empty fields dropped. *)
Definition split_ws (s : string) : list string :=
  filter nonempty (split_by is_space s).

(** [s.endswith(suffix)] *)
Fixpoint endswith (s suffix : string) : bool :=
  String.eqb s suffix ||
  match s with
  | EmptyString => false
  | String _ s' => endswith s' suffix
  end.

(** [s.endswith((t1, ..., tn))] with a tuple of suffixes. *)
Definition endswith_any (s : string) (suffixes : list string) : bool :=
  existsb (endswith s) suffixes.

(** [re.search] of a one-character class. *)
Fixpoint contains (p : ascii -> bool) (s : string) : bool :=
  match s with
  | EmptyString => false
  | String c s' => p c || contains p s'
  end.

(** [re.sub(pat, '', s)] for a pattern that is a one-character class. *)
Fixpoint remove (p : ascii -> bool) (s : string) : string :=
  match s with
  | EmptyString => EmptyString
  | String c s' => if p c then remove p s' else String c (remove p s')
  end.

(** Line boundaries of [str.splitlines] on 8-bit text. *)
Definition is_linebreak (c : ascii) : bool :=
  let n := N_of_ascii c in
  ((10 <=? n)%N && (n <=? 13)%N) || ((28 <=? n)%N && (n <=? 30)%N).

(** [s.splitlines()]: no line for the empty string, no empty last line
    after a final line break, CR LF counted once. *)
Fixpoint splitlines (s : string) : list string :=
  match s with
  | EmptyString => []
  | String c s' =>
      if is_linebreak c then
        match c, s' with
        | "013"%char, String "010"%char s'' => "" :: splitlines s''
        | _, _ => "" :: splitlines s'
        end
      else match splitlines s' with
           | [] => [String c ""]
           | h :: t => String c h :: t
           end
  end.

(** Universal newlines of a file opened in text mode: CR LF and a lone CR
    are read as LF. *)
Fixpoint universal_newlines (s : string) : string :=
  match s with
  | EmptyString => EmptyString
  | String c s' =>
      match c, s' with
      | "013"%char, String "010"%char s'' =>
          String "010"%char (universal_newlines s'')
      | "013"%char, _ => String "010"%char (universal_newlines s')
      | _, _ => String c (universal_newlines s')
      end
  end.

(** [b.splitlines()] on bytes: only LF, CR and CR LF end a line. *)
Fixpoint splitlines_bytes (s : string) : list string :=
  match s with
  | EmptyString => []
  | String c s' =>
      match c, s' with
      | "013"%char, String "010"%char s'' => "" :: splitlines_bytes s''
      | "013"%char, _ => "" :: splitlines_bytes s'
      | "010"%char, _ => "" :: splitlines_bytes s'
      | _, _ =>
          match splitlines_bytes s' with
          | [] => [String c ""]
          | h :: t => String c h :: t
          end
      end
  end.

(** A character outside ASCII. *)
Definition non_ascii (c : ascii) : bool := (128 <=? N_of_ascii c)%N.

(** Line boundaries of [str.splitlines] among the code points below 256:
    the ASCII ones and NEL (U+0085). *)
Definition is_linebreak_str (c : ascii) : bool :=
  is_linebreak c || Ascii.eqb c "133".

(** [s.splitlines()] on a [str] that the caller passes, whose characters
    are read as code points below 256. *)
Fixpoint splitlines_str (s : string) : list string :=
  match s with
  | EmptyString => []
  | String c s' =>
      if is_linebreak_str c then
        match c, s' with
        | "013"%char, String "010"%char s'' => "" :: splitlines_str s''
        | _, _ => "" :: splitlines_str s'
        end
      else match splitlines_str s' with
           | [] => [String c ""]
           | h :: t => String c h :: t
           end
  end.

End Py.

(** ** Exceptions, events and the effect monad *)

(** The exceptions the program can end with.  A failed [assert] carries its
    message; the other constructors are raised by the interpreter or by a
    library the program calls. *)
Inductive error : Type :=
| AssertionError (msg : string)
| FileNotFoundError (path : string)
| NotADirectoryError (path : string)
| IsADirectoryError (path : string)
| AttributeError (what : string)
| ZeroDivisionError
| Cv2Error (what : string)
| ValueError (msg : string)
| NonAsciiText (path : string).

(** [NonAsciiText] is not an exception of the program but the edge of this
    model.  Text is followed only as far as it is ASCII: on a file with a
    byte above 127 the program either raises [UnicodeDecodeError] (bytes
    that are invalid in the locale's encoding) or goes on with characters
    whose case and white-space tables the model does not have.  A run of the
    model that reads such a file stops with [NonAsciiText], and nothing
    below draws a conclusion from that outcome. *)

(** The message of the existence assertions,
    [f"Folder {folder} does not exist"] and [f"{path} does not exist"].  This
    failure is what the specification calls a NotFoundError. *)
Definition NotFoundError (subject : string) : error :=
  AssertionError (subject ++ " does not exist").

Inductive result (A : Type) : Type :=
| Ok (a : A)
| Raise (e : error).
Arguments Ok {A} a.
Arguments Raise {A} e.

(** What a run does besides computing its value: directory listings, reads
    of file contents and the lines it prints. *)
Inductive event : Type :=
| ListDir (path : string)
| ReadBytes (path : string)
| ReadText (path : string)
| ImRead (path : string)
| PrintFoundFiles (n : nat) (suffix : list string) (folder : string)
                  (files : list string)
| PrintFoundEmails (n : nat) (folder : string).

(** A computation: the events so far, then a value or an exception. *)
Definition io (A : Type) : Type := (list event * result A)%type.

Definition ret {A} (a : A) : io A := ([], Ok a).

Definition raise {A} (e : error) : io A := ([], Raise e).

Definition bind {A B} (m : io A) (k : A -> io B) : io B :=
  match m with
  | (t, Ok a) => let (t', r) := k a in (t ++ t', r)
  | (t, Raise e) => (t, Raise e)
  end.

Definition emit (e : event) : io unit := ([e], Ok tt).

Definition lift {A} (r : result A) : io A := ([], r).

(** [assert cond, msg] *)
Definition assert_ (cond : bool) (e : error) : io unit :=
  if cond then ret tt else raise e.

Notation "x <- m ;; k" := (bind m (fun x => k))
  (at level 61, m at next level, right associativity).
Notation "m ;;; k" := (bind m (fun _ => k))
  (at level 61, right associativity).

(** [for x in xs: acc = body(acc, x)], stopping at the first exception. *)
Fixpoint for_each {A S} (xs : list A) (body : S -> A -> io S) (acc : S)
  : io S :=
  match xs with
  | [] => ret acc
  | x :: xs' => acc' <- body acc x ;; for_each xs' body acc'
  end.

Definition trace {A} (m : io A) : list event := fst m.
Definition outcome {A} (m : io A) : result A := snd m.

(** ** The file system *)

Module OS.

Inductive node : Type :=
| File (content : list byte)
| Dir (entries : list string).

(** What a path resolves to, if anything. *)
Definition filesystem : Type := string -> option node.

(** [os.path.exists(path)] *)
Definition exists_ (fs : filesystem) (path : string) : bool :=
  match fs path with Some _ => true | None => false end.

(** [os.listdir(path)] *)
Definition listdir (fs : filesystem) (path : string) : io (list string) :=
  match fs path with
  | Some (Dir entries) => emit (ListDir path) ;;; ret entries
  | Some (File _) => raise (NotADirectoryError path)
  | None => raise (FileNotFoundError path)
  end.

Definition startswith_slash (s : string) : bool :=
  match s with String "/"%char _ => true | _ => false end.

(** [os.path.join(a, p)] (posixpath): an absolute [p] wins; otherwise the
    parts are joined by one separator unless [a] is empty or already ends
    with one. *)
Definition join (a p : string) : string :=
  if startswith_slash p then p
  else if (negb (Py.nonempty a) || Py.endswith a "/") then a ++ p
  else a ++ "/" ++ p.

(** [open(path, 'rb').read()] *)
Definition read_bytes (fs : filesystem) (path : string)
  : io (list byte) :=
  match fs path with
  | Some (File content) => emit (ReadBytes path) ;;; ret content
  | Some (Dir _) => raise (IsADirectoryError path)
  | None => raise (FileNotFoundError path)
  end.

(** [open(path).read()] on ASCII contents: the bytes read as text with
    universal newlines.  Contents with a byte above 127 are outside the
    model (see [NonAsciiText]). *)
Definition read_text (fs : filesystem) (path : string) : io string :=
  match fs path with
  | Some (File content) =>
      emit (ReadText path) ;;;
      if Py.contains Py.non_ascii (string_of_list_byte content)
      then raise (NonAsciiText path)
      else ret (Py.universal_newlines (string_of_list_byte content))
  | Some (Dir _) => raise (IsADirectoryError path)
  | None => raise (FileNotFoundError path)
  end.

End OS.

(** ** Base64 ([base64.py] over [binascii]) *)

Module Base64.

Definition alphabet : string :=
  "ABCDEFGHIJKLMNOPQRSTUVWXYZabcdefghijklmnopqrstuvwxyz0123456789+/".

Definition pad : ascii := "="%char.

(** The character of a 6-bit value. *)
Definition b64char (i : N) : ascii :=
  match String.get (N.to_nat i) alphabet with
  | Some c => c
  | None => pad
  end.

Fixpoint index_from (i : N) (c : ascii) (s : string) : option N :=
  match s with
  | EmptyString => None
  | String d s' => if Ascii.eqb c d then Some i else index_from (i + 1) c s'
  end.

(** The 6-bit value of a character of the alphabet. *)
Definition b64index (c : ascii) : option N := index_from 0 c alphabet.

Definition byte_of_N (n : N) : byte :=
  match Byte.of_N (N.land n 255) with
  | Some b => b
  | None => x00
  end.

(** Three bytes are 24 bits, cut into four 6-bit groups from the top. *)
Definition quantum (a b c : byte) : N :=
  N.lor (N.shiftl (Byte.to_N a) 16)
        (N.lor (N.shiftl (Byte.to_N b) 8) (Byte.to_N c)).

Definition sextet (n : N) (k : N) : N := N.land (N.shiftr n (6 * k)) 63.

(** [binascii.b2a_base64(s, newline=False)]: full groups of three bytes
    give four characters, a rest of one or two bytes is padded on the
    right with zero bits and the group filled up with [=]. *)
Fixpoint b2a_base64 (s : list byte) : list ascii :=
  match s with
  | [] => []
  | [a] =>
      let n := quantum a x00 x00 in
      [b64char (sextet n 3); b64char (sextet n 2); pad; pad]
  | [a; b] =>
      let n := quantum a b x00 in
      [b64char (sextet n 3); b64char (sextet n 2); b64char (sextet n 1);
       pad]
  | a :: b :: c :: rest =>
      let n := quantum a b c in
      b64char (sextet n 3) :: b64char (sextet n 2) ::
      b64char (sextet n 1) :: b64char (sextet n 0) :: b2a_base64 rest
  end.

Definition b64encode (s : list byte) : list ascii := b2a_base64 s.

(** [bytes.translate] with a table that maps [x] to [x'] and [y] to [y']
    and leaves every other character alone. *)
Definition translate (x x' y y' : ascii) (s : list ascii) : list ascii :=
  map (fun c => if Ascii.eqb c x then x'
                else if Ascii.eqb c y then y' else c) s.

(** [urlsafe_b64encode(s)]: the standard encoding with [+] replaced by [-]
    and [/] by [_]; the padding stays. *)
Definition urlsafe_b64encode (s : list byte) : list ascii :=
  translate "+" "-" "/" "_" (b64encode s).

Definition group (i1 i2 i3 i4 : N) : N :=
  N.lor (N.shiftl i1 18)
        (N.lor (N.shiftl i2 12) (N.lor (N.shiftl i3 6) i4)).

(** The decoder of the receiving side (RFC 4648, strict): groups of four
    characters, padding only in the last group. *)
Fixpoint b64decode (s : list ascii) : option (list byte) :=
  match s with
  | [] => Some []
  | c1 :: c2 :: c3 :: c4 :: rest =>
      match b64index c1, b64index c2 with
      | Some i1, Some i2 =>
          match b64index c3, b64index c4, rest with
          | Some i3, Some i4, _ =>
              let n := group i1 i2 i3 i4 in
              match b64decode rest with
              | Some bs =>
                  Some (byte_of_N (N.shiftr n 16) ::
                        byte_of_N (N.shiftr n 8) :: byte_of_N n :: bs)
              | None => None
              end
          | Some i3, None, [] =>
              if Ascii.eqb c4 pad then
                let n := group i1 i2 i3 0 in
                Some [byte_of_N (N.shiftr n 16); byte_of_N (N.shiftr n 8)]
              else None
          | None, None, [] =>
              if Ascii.eqb c3 pad && Ascii.eqb c4 pad then
                Some [byte_of_N (N.shiftr (group i1 i2 0 0) 16)]
              else None
          | _, _, _ => None
          end
      | _, _ => None
      end
  | _ => None
  end.

(** [urlsafe_b64decode(s)] *)
Definition urlsafe_b64decode (s : list ascii) : option (list byte) :=
  b64decode (translate "-" "+" "_" "/" s).

End Base64.

(** ** The message object *)

Module Mail.

Record attachment : Type := {
  data : list byte;
  maintype : string;
  subtype : string
}.

(** The state of an [EmailMessage] as far as the program drives it: the
    text that [get_content] returns for what [set_content] was given, the
    headers assigned with [msg[k] = v] in assignment order, each as the
    library stores and reads it back, and the attachments in the order they
    were added. *)
Record EmailMessage : Type := {
  content : option string;
  headers : list (string * string);
  attachments : list attachment
}.

(** The library's header factory: the text that [msg[name]] reads back
    after [msg[name] = value].  The [email] package is not part of the
    repository; the factory is a parameter of everything that assigns a
    header. *)
Definition header_factory : Type := string -> string -> string.

(** [EmailMessage()] *)
Definition new : EmailMessage :=
  {| content := None; headers := []; attachments := [] |}.

(** The text body as the library keeps it: the lines of the text, each
    ended by one line feed ([b'\n'.join(lines) + b'\n'] over
    [string.encode().splitlines()]). *)
Definition normal_body (text : string) : string :=
  (Py.join (String "010" "") (Py.splitlines_bytes text)
   ++ String "010" "")%string.

(** [msg.set_content(text)] *)
Definition set_content (msg : EmailMessage) (text : string)
  : EmailMessage :=
  {| content := Some (normal_body text);
     headers := headers msg;
     attachments := attachments msg |}.

(** The test of the library's [header_store_parse]: a header value may not
    run over more than one line ([len(value.splitlines()) > 1] is
    refused). *)
Definition single_line (value : string) : bool :=
  (List.length (Py.splitlines_str value) <=? 1)%nat.

Definition header_error : error :=
  ValueError
    "Header values may not contain linefeed or carriage return characters".

(** [msg[name] = value] for a header that the message does not hold yet
    (the only use the program makes of it). *)
Definition setitem (hf : header_factory) (msg : EmailMessage)
           (name value : string) : result EmailMessage :=
  if single_line value then
    Ok {| content := content msg;
          headers := headers msg ++ [(name, hf name value)];
          attachments := attachments msg |}
  else Raise header_error.


(** The message with one more attachment. *)
Definition attach (msg : EmailMessage) (a : attachment) : EmailMessage :=
  {| content := content msg;
     headers := headers msg;
     attachments := attachments msg ++ [a] |}.

(** ['/'.join((maintype, subtype))] *)
Definition content_type (main sub : string) : string :=
  (main ++ "/" ++ sub)%string.

(** [msg.add_attachment(data, maintype=..., subtype=...)]: the new part gets
    the header [Content-Type: maintype/subtype], which is refused like any
    other header when it runs over more than one line. *)
Definition add_attachment (msg : EmailMessage) (d : list byte)
           (main sub : string) : result EmailMessage :=
  if single_line (content_type main sub) then
    Ok (attach msg {| data := d; maintype := main; subtype := sub |})
  else Raise header_error.


End Mail.

(** ** The libraries behind the image branch

    [cv2], [numpy] and Python's float division are not part of the
    repository; [image2bytes] is modelled over their interface. *)
Record imaging : Type := {
  image : Type;
  pyfloat : Type;
  (** [img.shape[:2]]: rows, then columns *)
  shape : image -> Z * Z;
  (** [cv2.imread(path, cv2.IMREAD_UNCHANGED)] on the file's contents;
      [None] when they do not decode *)
  imdecode : list byte -> option image;
  (** [a / b], the true division of two integers, for [b] other than 0 *)
  truediv : Z -> Z -> pyfloat;
  (** [cv2.resize(img, None, fx=fx, fy=fy)] *)
  resize : image -> pyfloat -> pyfloat -> result image;
  (** [cv2.imencode(ext, img)[1].tobytes()] *)
  imencode : string -> image -> result (list byte)
}.

(** ** The functions of [utils.py] *)

Module Utils.

Import Py.

(** An argument annotated [str or list]. *)
Inductive str_or_list : Type :=
| Str (s : string)
| Lst (l : list string).

(** [str2list]: a lone string becomes a one-element list, a list is
    returned as it is. *)
Definition str2list (string_ : str_or_list) : list string :=
  match string_ with
  | Str s => [s]
  | Lst l => l
  end.

(** [x in l] on a list of strings. *)
Definition mem (x : string) (l : list string) : bool :=
  existsb (String.eqb x) l.

(** [files[idx]] with a list of booleans: the entries whose flag is set. *)
Fixpoint mask {A} (xs : list A) (idx : list bool) : list A :=
  match xs, idx with
  | x :: xs', b :: idx' => if b then x :: mask xs' idx' else mask xs' idx'
  | _, _ => []
  end.

(** [file.split('.')[-1]] *)
Definition file_suffix_of (file : string) : string :=
  last_item (split "." file).

(** A [pd.Series] of strings is the list of its values; the [.str]
    accessor maps over it (an empty listing gives an empty series of
    strings). *)
Definition find_files_with_suffix (fs : OS.filesystem) (folder : string)
           (suffix : str_or_list) : io (list string) :=
  assert_ (OS.exists_ fs folder) (NotFoundError ("Folder " ++ folder)) ;;;
  let suffix := str2list suffix in
  files <- OS.listdir fs folder ;;
  let file_suffixes := map file_suffix_of files in
  let idx_suffix := map (fun file_suffix => mem file_suffix suffix)
                        file_suffixes in
  let files_suffix := mask files idx_suffix in
  ret files_suffix.

Definition image_extensions : list string :=
  [".png"; ".jpg"; ".jpeg"; ".tiff"; ".bmp"; ".gif"].

Definition is_file_image (fs : OS.filesystem) (path : string) : io bool :=
  assert_ (OS.exists_ fs path) (NotFoundError path) ;;;
  let check := endswith_any (lower path) image_extensions in
  ret check.

(** [cv2.imread(path, cv2.IMREAD_UNCHANGED)]: [None] for anything that is
    not a decodable file. *)
Definition imread (cv : imaging) (fs : OS.filesystem) (path : string)
  : io (option (image cv)) :=
  emit (ImRead path) ;;;
  match fs path with
  | Some (OS.File bytes) => ret (imdecode cv bytes)
  | _ => ret None
  end.

Definition image2bytes (cv : imaging) (fs : OS.filesystem) (path : string)
           (max_size : Z) : io (list byte) :=
  assert_ (OS.exists_ fs path) (NotFoundError path) ;;;
  is_image <- is_file_image fs path ;;
  assert_ is_image (AssertionError (path ++ " is not an image")) ;;;
  img <- imread cv fs path ;;
  match img with
  | None => raise (AttributeError "shape")
  | Some img =>
      let '(rows, cols) := shape cv img in
      let dim_max := if (rows <? cols)%Z then 1%nat else 0%nat in
      let pixels_max := nth dim_max [rows; cols] 0%Z in
      img <- (if (pixels_max >? max_size)%Z then
                if (pixels_max =? 0)%Z then raise ZeroDivisionError
                else
                  let scale := truediv cv max_size pixels_max in
                  lift (resize cv img scale scale)
              else ret img) ;;
      let suffix := last_item (split "." path) in
      raw <- lift (imencode cv ("." ++ suffix) img) ;;
      ret raw
  end.

(** The body of the attachment loop of [create_message]. *)
Definition attach_file (cv : imaging) (fs : OS.filesystem)
           (folder_attachents : string) (max_image_size : Z)
           (msg : Mail.EmailMessage) (file : string)
  : io Mail.EmailMessage :=
  let subtype := last_item (split "." file) in
  let path := OS.join folder_attachents file in
  is_image <- is_file_image fs path ;;
  data <- (if is_image then image2bytes cv fs path max_image_size
           else OS.read_bytes fs path) ;;
  lift (Mail.add_attachment msg data "image" subtype).

Definition create_message (cv : imaging) (hf : Mail.header_factory)
           (fs : OS.filesystem)
           (message email_from email_to subject folder_attachents : string)
           (attachment_suffix : str_or_list) (max_image_size : Z)
  : io Mail.EmailMessage :=
  assert_ (OS.exists_ fs folder_attachents)
          (NotFoundError ("Folder " ++ folder_attachents)) ;;;
  let attachment_suffix := str2list attachment_suffix in
  let msg := Mail.new in
  let msg := Mail.set_content msg message in
  msg <- lift (Mail.setitem hf msg "To" email_to) ;;
  msg <- lift (Mail.setitem hf msg "From" email_from) ;;
  msg <- lift (Mail.setitem hf msg "Subject" subject) ;;
  files <- find_files_with_suffix fs folder_attachents
                                  (Lst attachment_suffix) ;;
  emit (PrintFoundFiles (List.length files) attachment_suffix
                        folder_attachents files) ;;;
  for_each files (attach_file cv fs folder_attachents max_image_size) msg.

(** [message2bytes]; [as_bytes] is the serializer of the [email]
    library. *)
Definition message2bytes (as_bytes : Mail.EmailMessage -> list byte)
           (msg : Mail.EmailMessage) : list (string * string) :=
  let encoded_msg :=
    string_of_list_ascii (Base64.urlsafe_b64encode (as_bytes msg)) in
  let di_msg := [("raw", encoded_msg)] in
  di_msg.

(** The delimiters of the pattern ['\\s|\;|\\n']. *)
Definition is_delimiter (c : ascii) : bool :=
  is_space c || Ascii.eqb c ";" || Ascii.eqb c "010".

(** The character class of the pattern ['\\<|\\>']. *)
Definition is_angle (c : ascii) : bool :=
  Ascii.eqb c "<" || Ascii.eqb c ">".

Definition process_email_list (fs : OS.filesystem) (folder : string)
           (file_suffix : string) : io (list string) :=
  assert_ (OS.exists_ fs folder) (NotFoundError ("Folder " ++ folder)) ;;;
  files <- find_files_with_suffix fs folder (Str file_suffix) ;;
  emails <- for_each files
              (fun emails file =>
                 text <- OS.read_text fs (OS.join folder file) ;;
                 ret (emails ++ splitlines text))
              [] ;;
  let emails := map (fun email => str2list (Str email)) emails in
  let emails := [join " " (map (join " ") emails)] in
  let emails := map lower emails in
  let emails := [join " " (split_ws (hd "" emails))] in
  let emails := List.concat (map (split_by is_delimiter) emails) in
  let emails := filter (contains (Ascii.eqb "@")) emails in
  let emails := map (remove is_angle) emails in
  emit (PrintFoundEmails (List.length emails) folder) ;;;
  ret emails.

(** *** The confirmation prompt *)

(** The argument of [sys.exit] and the exit status it gives. *)
Inductive exit_arg : Type :=
| ExitNone
| ExitInt (status : Z)
| ExitStr (msg : string).

Definition exit_status (a : exit_arg) : Z :=
  match a with
  | ExitNone => 0
  | ExitInt status => status
  | ExitStr _ => 1
  end.

(** How a run on the input lines typed so far stands: back in the caller
    (with the lines it did not consume), ended by [SystemExit], or blocked
    in [input()] waiting for another line. *)
Inductive prompt_outcome : Type :=
| Returned (rest : list string)
| SystemExit (arg : exit_arg)
| Waiting.

Definition is_choice (inp : string) : bool :=
  String.eqb inp "Y" || String.eqb inp "n".

(** The [while] loop and the final test, entered with the line [inp]
    already read and echoed. *)
Fixpoint prompt_loop (inp : string) (stdin : list string)
  : list string * prompt_outcome :=
  if negb (String.eqb inp "Y") && negb (String.eqb inp "n") then
    match stdin with
    | [] => (["You did not press Y or n, try again"], Waiting)
    | inp' :: stdin' =>
        let (out, r) := prompt_loop inp' stdin' in
        ("You did not press Y or n, try again" ::
         ("You pressed " ++ inp')%string :: out, r)
    end
  else if String.eqb inp "n" then
    ([], SystemExit (ExitStr "You pressed n, breaking"))
  else ([], Returned stdin).

(** [press_Yn_to_continue] on the lines of standard input; the first
    component is what it wrote to standard output. *)
Definition press_Yn_to_continue (stdin : list string)
  : list string * prompt_outcome :=
  match stdin with
  | [] => (["Press Y to continue, or n to break"], Waiting)
  | inp :: stdin' =>
      let (out, r) := prompt_loop inp stdin' in
      ("Press Y to continue, or n to break" ::
       ("You pressed " ++ inp)%string :: out, r)
  end.

End Utils.

(** ** The serialized form of a message *)

(** Modelled from the spec: the serializer [msg.as_bytes()] and the parser
    of the [email] package, which are not under src/.  The specification
    (section 6) asks for the full RFC-5322-style serialized message: the
    headers, then the MIME-encoded body and attachments.  The model writes
    a message without attachments as its headers and its text, and a
    message with attachments as a [multipart/mixed] message whose parts are
    the text and, base64-encoded, each attachment.  Header folding, encoded
    words and the wrapping of base64 lines are left out, and the boundary
    is chosen longer than every line instead of at random. *)

Module Mime.

Definition LF : string := String "010" "".
Definition quote : string := String "034" "".

(** Every line ended by a line feed. *)
Fixpoint unlines (lines : list string) : string :=
  match lines with
  | [] => ""
  | l :: ls => (l ++ LF ++ unlines ls)%string
  end.

(** The lines of a text that ends with a line feed. *)
Definition lines_of (text : string) : list string :=
  removelast (Py.split "010" text).

Fixpoint max_length (lines : list string) : nat :=
  match lines with
  | [] => 0
  | l :: ls => Nat.max (String.length l) (max_length ls)
  end.

Fixpoint zeros (n : nat) : string :=
  match n with
  | O => ""
  | S n => String "0" (zeros n)
  end.

(** A boundary that is longer than each of the given lines. *)
Definition boundary (lines : list string) : string :=
  ("===============" ++ zeros (S (max_length lines)) ++ "==")%string.

Definition header_line (h : string * string) : string :=
  (fst h ++ ": " ++ snd h)%string.

Definition text_headers : list string :=
  [("Content-Type: text/plain; charset=" ++ quote ++ "utf-8" ++ quote)%string;
   "Content-Transfer-Encoding: 7bit"].

Definition body_of (msg : Mail.EmailMessage) : string :=
  match Mail.content msg with
  | Some b => b
  | None => ""
  end.

(** The part that holds the text; the last, empty line belongs to the
    delimiter that follows. *)
Definition text_part (msg : Mail.EmailMessage) : list string :=
  text_headers ++ [""] ++ lines_of (body_of msg) ++ [""].

(** The part of one attachment. *)
Definition attachment_part (hf : Mail.header_factory) (a : Mail.attachment)
  : list string :=
  [("Content-Type: " ++
     hf "Content-Type"
        (Mail.content_type (Mail.maintype a) (Mail.subtype a)))%string;
   "Content-Transfer-Encoding: base64";
   "Content-Disposition: attachment";
   "MIME-Version: 1.0";
   "";
   string_of_list_ascii (Base64.b64encode (Mail.data a));
   ""].

Definition parts (hf : Mail.header_factory) (msg : Mail.EmailMessage)
  : list (list string) :=
  text_part msg :: map (attachment_part hf) (Mail.attachments msg).

(** The lines of the serialized message. *)
Definition as_lines (hf : Mail.header_factory) (msg : Mail.EmailMessage)
  : list string :=
  match Mail.attachments msg with
  | [] =>
      text_headers ++ ["MIME-Version: 1.0"] ++
      map header_line (Mail.headers msg) ++ [""] ++
      lines_of (body_of msg)
  | _ :: _ =>
      let chunks := parts hf msg in
      let b := boundary (List.concat chunks) in
      ["MIME-Version: 1.0"] ++
      map header_line (Mail.headers msg) ++
      [("Content-Type: multipart/mixed; boundary=" ++ quote ++ b ++ quote)
         %string;
       ""] ++
      flat_map (fun chunk => ("--" ++ b)%string :: chunk) chunks ++
      [("--" ++ b ++ "--")%string]
  end.

(** [msg.as_bytes()] *)
Definition as_bytes (hf : Mail.header_factory) (msg : Mail.EmailMessage)
  : list byte :=
  list_byte_of_string (unlines (as_lines hf msg)).

(** *** The parser *)











Definition is_delimiter (b line : string) : bool :=
  String.eqb line ("--" ++ b)%string ||
  String.eqb line ("--" ++ b ++ "--")%string.






End Mime.

(** ** Rounding of scaled dimensions *)

(** Modelled from the spec: an image is rescaled by multiplying each
    dimension by the factor and rounding to the nearest integer (a tie goes
    to the even one, as [cvRound] does). *)
Definition cv_round (num den : Z) : Z :=
  let q := (num / den)%Z in
  let r := (num mod den)%Z in
  if (2 * r <? den)%Z then q
  else if (den <? 2 * r)%Z then (q + 1)%Z
  else if Z.even q then q else (q + 1)%Z.

(** ** A sample installation

    A small file system, a stand-in imaging library and a stand-in header
    factory, on which the functions above can be run. *)

Module Sample.

Definition LF : string := String "010" "".

Definition fs : OS.filesystem := fun path =>
  if String.eqb path "data" then
    Some (OS.Dir ["a.txt"; "sub"; "jpg"; "b.TXT"; "pic.jpg"])
  else if String.eqb path "data/a.txt" then
    Some (OS.File (list_byte_of_string "plain text"))
  else if String.eqb path "data/sub" then
    Some (OS.Dir ["deep.txt"])
  else if String.eqb path "data/sub/deep.txt" then
    Some (OS.File (list_byte_of_string "deeper"))
  else if String.eqb path "data/jpg" then
    Some (OS.File [xff; xd8; xff])
  else if String.eqb path "data/b.TXT" then
    Some (OS.File (list_byte_of_string "SHOUT"))
  else if String.eqb path "data/pic.jpg" then
    Some (OS.File [x03; x02; x10; x20; x30])
  else if String.eqb path "inbox" then
    Some (OS.Dir ["list.txt"])
  else if String.eqb path "inbox/list.txt" then
    Some (OS.File (list_byte_of_string
            ("Alice <alice@example.com>;" ++ LF ++
             "notanemail bob@test.org" ++ LF)))
  else if String.eqb path "docs" then
    Some (OS.Dir ["readme.md"; "LICENSE"])
  else None.

(** Images as rows, columns and pixel bytes; a float as a fraction. *)
Definition cv : imaging := {|
  image := Z * Z * list byte;
  pyfloat := Z * Z;
  shape := fun img => fst img;
  imdecode := fun bytes =>
    match bytes with
    | r :: c :: px => Some (Z.of_N (Byte.to_N r), Z.of_N (Byte.to_N c), px)
    | _ => None
    end;
  truediv := fun a b => (a, b);
  resize := fun img fx fy =>
    let '(rows, cols, px) := img in
    let rows' := cv_round (rows * fst fy) (snd fy) in
    let cols' := cv_round (cols * fst fx) (snd fx) in
    if (fst fx <=? 0)%Z || (fst fy <=? 0)%Z then Raise (Cv2Error "inv_scale")
    else if (rows' <=? 0)%Z || (cols' <=? 0)%Z then Raise (Cv2Error "dsize")
    else Ok (rows', cols', px);
  imencode := fun ext img =>
    let '(rows, cols, px) := img in
    Ok (Base64.byte_of_N (Z.to_N rows) :: Base64.byte_of_N (Z.to_N cols)
        :: px)
|}.

(** A header factory that keeps a value as it is, a final line break
    apart. *)
Definition header_factory : Mail.header_factory :=
  fun _ value => Py.remove Py.is_linebreak value.

(** The message of the sample run and the run itself. *)
Definition run : io Mail.EmailMessage :=
  Utils.create_message cv header_factory fs "hello" "me@example.com"
                       "you@example.com" "greetings" "data"
                       (Utils.Lst ["txt"; "jpg"]) 2.

Definition msg : Mail.EmailMessage :=
  match outcome run with
  | Ok m => m
  | Raise _ => Mail.new
  end.

End Sample.

(** A character that the URL-safe translation leaves alone. *)
Definition std_char (c : ascii) : bool :=
  negb (Ascii.eqb c "-") && negb (Ascii.eqb c "_").

(** ** Specification-side notions *)

(** No character of [s] satisfies [p]. *)
Definition free_of (p : ascii -> bool) (s : string) : Prop :=
  Py.contains p s = false.

(** The specification's "final dot-delimited segment" of a file name: the
    text after the last dot, or the whole name when it has no dot. *)
Definition final_segment (file seg : string) : Prop :=
  free_of (Ascii.eqb ".") seg /\
  (file = seg \/ exists stem, file = (stem ++ "." ++ seg)%string).

(** The specification's reading of a suffix filter: the file's final
    segment is one of the suffixes. *)
Definition matches_suffix (suffixes : list string) (file : string) : Prop :=
  exists seg, final_segment file seg /\ In seg suffixes.

(** The image suffixes of the specification's whitelist, without the dot. *)
Definition image_suffixes : list string :=
  ["png"; "jpg"; "jpeg"; "tiff"; "bmp"; "gif"].

(** A line of input that the prompt does not accept. *)
Definition rejected (inp : string) : Prop := inp <> "Y" /\ inp <> "n".

(** The bytes of the regular file at [path]; nothing for a directory or a
    missing path. *)
Definition bytes_at (fs : OS.filesystem) (path : string) : list byte :=
  match fs path with
  | Some (OS.File content) => content
  | _ => []
  end.

(** The lines that [open(path).read().splitlines()] gives for the regular
    file at [path]. *)
Definition lines_at (fs : OS.filesystem) (path : string) : list string :=
  Py.splitlines (Py.universal_newlines (string_of_list_byte
                                          (bytes_at fs path))).

(** A regular file whose bytes are all ASCII, the text files that the
    model of [open(path).read()] covers. *)
Definition ascii_file (fs : OS.filesystem) (path : string) : Prop :=
  exists content,
    fs path = Some (OS.File content) /\
    free_of Py.non_ascii (string_of_list_byte content).

(** The normalisation, splitting, filtering and stripping steps of
    [process_email_list] applied to one piece of text. *)
Definition addresses_of (text : string) : list string :=
  map (Py.remove Utils.is_angle)
      (filter (Py.contains (Ascii.eqb "@"))
              (Py.split_by Utils.is_delimiter
                           (Py.join " " (Py.split_ws (Py.lower text))))).

(** A suffix without a dot. *)
Definition dot_free (s : string) : bool :=
  negb (Py.contains (Ascii.eqb ".") s).

(** The characters of a base64url text: letters, digits, [-], [_] and the
    padding [=]. *)
Definition is_urlsafe_char (c : ascii) : bool :=
  let n := N_of_ascii c in
  ((65 <=? n)%N && (n <=? 90)%N) || ((97 <=? n)%N && (n <=? 122)%N) ||
  ((48 <=? n)%N && (n <=? 57)%N) ||
  Ascii.eqb c "-" || Ascii.eqb c "_" || Ascii.eqb c "=".

(** What the prompt writes for one line it rejects: the echo of the line
    and the request to try again. *)
Definition rejected_echo (inp : string) : list string :=
  [("You pressed " ++ inp)%string; "You did not press Y or n, try again"].

(** An extension that starts with a dot and holds no path separator. *)
Definition dot_ext (ext : string) : bool :=
  match ext with
  | String "."%char _ => negb (Py.contains (Ascii.eqb "/") ext)
  | _ => false
  end.

(** The data that one turn of the attachment loop of [create_message]
    fetches for [file]: the classification of its path, then
    [image2bytes] or the raw read. *)
Definition fetch_attachment (cv : imaging) (fs : OS.filesystem)
           (folder_attachents : string) (max_image_size : Z)
           (file : string) : io (list byte) :=
  let path := OS.join folder_attachents file in
  is_image <- Utils.is_file_image fs path ;;
  if is_image then Utils.image2bytes cv fs path max_image_size
  else OS.read_bytes fs path.

(** One turn of the attachment loop of [create_message] without the
    message: the fetch of the data, then the attachment that
    [add_attachment] makes of it, declared as ["image"] with the file's
    suffix, unless the content type is refused. *)
Definition attach_turn (cv : imaging) (fs : OS.filesystem)
           (folder_attachents : string) (max_image_size : Z)
           (file : string) : io Mail.attachment :=
  d <- fetch_attachment cv fs folder_attachents max_image_size file ;;
  if Mail.single_line
       (Mail.content_type "image" (Utils.file_suffix_of file)) then
    ret {| Mail.data := d;
           Mail.maintype := "image";
           Mail.subtype := Utils.file_suffix_of file |}
  else raise Mail.header_error.

(** The attachment that a turn made (an empty one if it raised). *)
Definition turned (m : io Mail.attachment) : Mail.attachment :=
  match outcome m with
  | Ok a => a
  | Raise _ => {| Mail.data := []; Mail.maintype := ""; Mail.subtype := "" |}
  end.

(** A turn that made an attachment. *)
Definition turn_ok (m : io Mail.attachment) : Prop :=
  exists a, outcome m = Ok a.

(** The message that [create_message] builds from valid headers: the
    normalised text as body, the three headers in the order they are
    assigned, each as the header factory renders it, and the given
    attachments. *)
Definition composed (hf : Mail.header_factory)
           (message email_from email_to subject : string)
           (atts : list Mail.attachment) : Mail.EmailMessage :=
  {| Mail.content := Some (Mail.normal_body message);
     Mail.headers :=
       [("To", hf "To" email_to); ("From", hf "From" email_from);
        ("Subject", hf "Subject" subject)];
     Mail.attachments := atts |}.

(** The three header values are accepted by [msg[name] = value]. *)
Definition valid_headers (email_from email_to subject : string) : Prop :=
  Mail.single_line email_to = true /\
  Mail.single_line email_from = true /\
  Mail.single_line subject = true.

(** Modelled from the spec: what [cv2.resize(img, None, fx=s, fy=s)] does
    with the dimensions for a factor [s = m / l].  Section 4.3 step 3 asks
    for both dimensions to be rescaled uniformly by that factor; OpenCV
    computes each new dimension as the rounded product and refuses a result
    with an empty dimension.  The contract leaves the floating-point
    rounding open: a returned dimension is within one pixel of the exact
    product, a dimension that scales to less than half a pixel makes the
    call fail, and the call succeeds when both scale to more than half a
    pixel. *)
Definition resize_contract (cv : imaging) : Prop :=
  forall (img : image cv) (rows cols m l : Z),
    shape cv img = (rows, cols) ->
    (0 < rows)%Z -> (0 < cols)%Z -> (0 < l)%Z ->
    let scaled := resize cv img (truediv cv m l) (truediv cv m l) in
    ((2 * rows * m < l)%Z \/ (2 * cols * m < l)%Z ->
     exists e, scaled = Raise e) /\
    ((l < 2 * rows * m)%Z -> (l < 2 * cols * m)%Z ->
     exists img', scaled = Ok img') /\
    (forall img',
        scaled = Ok img' ->
        exists rows' cols',
          shape cv img' = (rows', cols') /\
          (0 < rows')%Z /\ (0 < cols')%Z /\
          (Z.abs (rows' * l - rows * m) < l)%Z /\
          (Z.abs (cols' * l - cols * m) < l)%Z).





(** The tokens of a list of words that hold an ['@']: the words joined by
    single spaces, split at the delimiters, filtered. *)
Definition at_tokens (words : list string) : list string :=
  filter (Py.contains (Ascii.eqb "@"))
         (Py.split_by Utils.is_delimiter (Py.join " " words)).

(** ** Further sample folders

    An album with an upper-case image name, an undecodable image and a
    directory that is named like an image; a folder of letters; a folder in
    which a directory is named like a text file; a folder with an image of
    1 by 200 pixels; and a folder with a text file that is not ASCII. *)

Module Cases.

Definition fs : OS.filesystem := fun path =>
  if String.eqb path "album" then
    Some (OS.Dir ["one.PNG"; "notes.txt"; "broken.gif"; "shots.png"])
  else if String.eqb path "album/one.PNG" then
    Some (OS.File [x02; x04; x61; x62])
  else if String.eqb path "album/notes.txt" then
    Some (OS.File (list_byte_of_string "no address here"))
  else if String.eqb path "album/broken.gif" then
    Some (OS.File [x47])
  else if String.eqb path "album/shots.png" then
    Some (OS.Dir [])
  else if String.eqb path "letters" then
    Some (OS.Dir ["first.txt"; "second.txt"; "third.md"])
  else if String.eqb path "letters/first.txt" then
    Some (OS.File (list_byte_of_string
            ("To: Carol <CAROL@Example.org>; dave@example.org" ++
             Sample.LF ++ "no address on this line")))
  else if String.eqb path "letters/second.txt" then
    Some (OS.File (list_byte_of_string "erin@example.net"))
  else if String.eqb path "letters/third.md" then
    Some (OS.File (list_byte_of_string "frank@example.net"))
  else if String.eqb path "mixed" then
    Some (OS.Dir ["a.txt"; "sub.txt"; "z.txt"])
  else if String.eqb path "mixed/a.txt" then
    Some (OS.File (list_byte_of_string "gina@example.com"))
  else if String.eqb path "mixed/sub.txt" then
    Some (OS.Dir [])
  else if String.eqb path "mixed/z.txt" then
    Some (OS.File (list_byte_of_string "hugo@example.com"))
  else if String.eqb path "wide" then
    Some (OS.Dir ["strip.png"])
  else if String.eqb path "wide/strip.png" then
    Some (OS.File [x01; xc8; x2a])
  else if String.eqb path "caf" then
    Some (OS.Dir ["menu.txt"])
  else if String.eqb path "caf/menu.txt" then
    Some (OS.File [x63; x61; x66; xe9])
  else None.

End Cases.

(** * Properties *)

(** ** Strings *)

Section StringFacts.

Import Py.

Variable p : ascii -> bool.

Lemma split_by_nonempty (s : string) : split_by p s <> [].
Proof.
  destruct s as [|c s]; simpl; [discriminate|].
  destruct (p c); [discriminate|].
  destruct (split_by p s); discriminate.
Qed.

Lemma split_by_free (s : string) :
  free_of p s -> split_by p s = [s].
Proof.
  unfold free_of. induction s as [|c s IH]; simpl; [reflexivity|].
  destruct (p c); simpl; [discriminate|].
  intros H. rewrite (IH H). reflexivity.
Qed.

(** Splitting at a separator splits the field lists. *)
Lemma split_by_app (s : string) (c : ascii) (t : string) :
  p c = true ->
  split_by p (s ++ String c t)%string = split_by p s ++ split_by p t.
Proof.
  intros Hc. induction s as [|a s IH]; simpl.
  - rewrite Hc. reflexivity.
  - destruct (p a).
    + rewrite IH. reflexivity.
    + rewrite IH. pose proof (split_by_nonempty s) as Hne.
      destruct (split_by p s) as [|h l]; [contradiction|reflexivity].
Qed.

Lemma last_app_nonempty {A} (l1 l2 : list A) (d : A) :
  l2 <> [] -> List.last (l1 ++ l2) d = List.last l2 d.
Proof.
  intros Hne. induction l1 as [|x l1 IH]; [reflexivity|].
  simpl. rewrite IH.
  destruct (l1 ++ l2) eqn:E; [|reflexivity].
  apply app_eq_nil in E. destruct E as [_ E]. contradiction.
Qed.

Lemma last_split_by_app (s : string) (c : ascii) (t : string) :
  p c = true ->
  last_item (split_by p (s ++ String c t)%string) = last_item (split_by p t).
Proof.
  intros Hc. unfold last_item. rewrite split_by_app by assumption.
  apply last_app_nonempty, split_by_nonempty.
Qed.

End StringFacts.

Lemma append_assoc (s t u : string) :
  ((s ++ t) ++ u = s ++ (t ++ u))%string.
Proof.
  induction s as [|c s IH]; [reflexivity|].
  cbn [String.append]. rewrite IH. reflexivity.
Qed.

Lemma final_segment_exists (file : string) :
  exists seg, final_segment file seg.
Proof.
  unfold final_segment, free_of.
  induction file as [|c file [seg [Hfree [Heq | [stem Heq]]]]].
  - exists "". split; [reflexivity|left; reflexivity].
  - subst file. destruct (Ascii.eqb "." c) eqn:Ec.
    + apply Ascii.eqb_eq in Ec. subst c.
      exists seg. split; [assumption|]. right. exists "". reflexivity.
    + exists (String c seg). split; [|left; reflexivity].
      cbn [Py.contains]. rewrite Ec. assumption.
  - subst file. exists seg. split; [assumption|].
    right. exists (String c stem). reflexivity.
Qed.

(** [file.split('.')[-1]] computes the final segment. *)
Lemma file_suffix_of_final_segment (file seg : string) :
  final_segment file seg -> Utils.file_suffix_of file = seg.
Proof.
  unfold final_segment, Utils.file_suffix_of, Py.split.
  intros [Hfree [Heq | [stem Heq]]]; subst file.
  - rewrite split_by_free by assumption. reflexivity.
  - change (stem ++ "." ++ seg)%string with (stem ++ String "." seg)%string.
    rewrite last_split_by_app by reflexivity.
    rewrite split_by_free by assumption. reflexivity.
Qed.

Lemma final_segment_file_suffix_of (file : string) :
  final_segment file (Utils.file_suffix_of file).
Proof.
  destruct (final_segment_exists file) as [seg H].
  rewrite (file_suffix_of_final_segment _ _ H). assumption.
Qed.

Lemma mem_In (x : string) (l : list string) :
  Utils.mem x l = true <-> In x l.
Proof.
  unfold Utils.mem. rewrite existsb_exists. split.
  - intros [y [Hy E]]. apply String.eqb_eq in E. subst. assumption.
  - intros H. exists x. split; [assumption|apply String.eqb_refl].
Qed.

Lemma matches_suffix_mem (suffixes : list string) (file : string) :
  Utils.mem (Utils.file_suffix_of file) suffixes = true <->
  matches_suffix suffixes file.
Proof.
  rewrite mem_In. unfold matches_suffix. split.
  - intros H. exists (Utils.file_suffix_of file).
    split; [apply final_segment_file_suffix_of|assumption].
  - intros [seg [Hseg Hin]].
    rewrite (file_suffix_of_final_segment _ _ Hseg). assumption.
Qed.

Lemma mask_map_filter {A} (g : A -> bool) (xs : list A) :
  Utils.mask xs (map g xs) = filter g xs.
Proof.
  induction xs as [|x xs IH]; simpl; [reflexivity|].
  rewrite IH. reflexivity.
Qed.

(** ** The File Finder *)

(** On an existing directory the File Finder lists the directory once and
    returns its entries filtered by [file.split('.')[-1] in suffix]. *)
Lemma find_files_with_suffix_dir (fs : OS.filesystem) (folder : string)
      (entries : list string) (suffix : Utils.str_or_list) :
  fs folder = Some (OS.Dir entries) ->
  Utils.find_files_with_suffix fs folder suffix =
  ([ListDir folder],
   Ok (filter (fun f => Utils.mem (Utils.file_suffix_of f)
                                  (Utils.str2list suffix)) entries)).
Proof.
  intros H. unfold Utils.find_files_with_suffix, OS.exists_, OS.listdir.
  rewrite H. simpl. rewrite map_map, mask_map_filter. reflexivity.
Qed.

Lemma find_files_with_suffix_missing (fs : OS.filesystem) (folder : string)
      (suffix : Utils.str_or_list) :
  fs folder = None ->
  Utils.find_files_with_suffix fs folder suffix =
  ([], Raise (NotFoundError ("Folder " ++ folder))).
Proof.
  intros H. unfold Utils.find_files_with_suffix, OS.exists_.
  rewrite H. reflexivity.
Qed.

(** C2: for an existing folder [F] and a suffix set [S], the File Finder
    returns exactly the immediate-child names of [F] whose final
    dot-delimited segment is, compared case-sensitively, an element of [S];
    only the listing of [F] itself is consulted (no recursion), and a name
    without a dot is matched by its whole name. *)
Theorem C2_file_finder_exact (fs : OS.filesystem) (F : string)
        (entries : list string) (S : Utils.str_or_list) :
  fs F = Some (OS.Dir entries) ->
  exists files,
    Utils.find_files_with_suffix fs F S = ([ListDir F], Ok files) /\
    files = filter (fun f => Utils.mem (Utils.file_suffix_of f)
                                       (Utils.str2list S)) entries /\
    (forall f, In f files <->
               In f entries /\ matches_suffix (Utils.str2list S) f) /\
    (forall f, free_of (Ascii.eqb ".") f ->
               (In f files <-> In f entries /\ In f (Utils.str2list S))).
Proof.
  intros H. eexists. split; [apply find_files_with_suffix_dir, H|].
  split; [reflexivity|]. split.
  - intros f. rewrite filter_In, matches_suffix_mem. reflexivity.
  - intros f Hfree. rewrite filter_In, mem_In.
    assert (E : Utils.file_suffix_of f = f).
    { apply file_suffix_of_final_segment. split; [assumption|].
      left; reflexivity. }
    rewrite E. reflexivity.
Qed.

(** ** The effect monad *)

Lemma bind_Ok_inv {A B} (m : io A) (k : A -> io B) (t : list event) (b : B) :
  bind m k = (t, Ok b) ->
  exists t1 a t2, m = (t1, Ok a) /\ k a = (t2, Ok b) /\ t = t1 ++ t2.
Proof.
  unfold bind. destruct m as [t1 [a | e]]; [|discriminate].
  destruct (k a) as [t2 r] eqn:E. intros H. inversion H; subst.
  exists t1, a, t2. auto.
Qed.

Lemma bind_Ok {A B} (m : io A) (k : A -> io B) (t1 : list event) (a : A) :
  m = (t1, Ok a) ->
  bind m k = (t1 ++ trace (k a), outcome (k a)).
Proof.
  intros ->. unfold bind, trace, outcome. destruct (k a); reflexivity.
Qed.


(** ** The Attachment Composer *)

Section Composer.

Variable cv : imaging.
Variable fs : OS.filesystem.
Variable folder : string.
Variable max_image_size : Z.

(** One turn of the attachment loop adds one attachment, declared as
    ["image"] with the file's [split('.')[-1]] as subtype. *)
Lemma attach_file_Ok (msg msg' : Mail.EmailMessage) (file : string)
      (t : list event) :
  Utils.attach_file cv fs folder max_image_size msg file = (t, Ok msg') ->
  exists d,
    msg' = Mail.attach msg {| Mail.data := d;
                              Mail.maintype := "image";
                              Mail.subtype := Utils.file_suffix_of file |}.
Proof.
  unfold Utils.attach_file. intros H.
  apply bind_Ok_inv in H. destruct H as (t1 & b & t2 & _ & H & _).
  apply bind_Ok_inv in H. destruct H as (t3 & d & t4 & _ & H & _).
  unfold lift, Mail.add_attachment in H.
  destruct (Mail.single_line _); inversion H. exists d. reflexivity.
Qed.

Lemma for_each_attach_Ok (files : list string) :
  forall (msg msg' : Mail.EmailMessage) (t : list event),
    for_each files (Utils.attach_file cv fs folder max_image_size) msg
    = (t, Ok msg') ->
    Mail.content msg' = Mail.content msg /\
    Mail.headers msg' = Mail.headers msg /\
    exists atts,
      Mail.attachments msg' = Mail.attachments msg ++ atts /\
      Forall2 (fun file att =>
                 Mail.subtype att = Utils.file_suffix_of file /\
                 Mail.maintype att = "image")
              files atts.
Proof.
  induction files as [|file files IH]; intros msg msg' t H.
  - inversion H; subst. repeat split.
    exists []. rewrite app_nil_r. split; [reflexivity|constructor].
  - cbn [for_each] in H. apply bind_Ok_inv in H.
    destruct H as (t1 & m1 & t2 & H1 & H2 & _).
    apply attach_file_Ok in H1. destruct H1 as [d ->].
    apply IH in H2. destruct H2 as (Hc & Hh & atts & Ha & HF).
    simpl in Hc, Hh, Ha. repeat split; try assumption.
    eexists (_ :: atts). rewrite Ha, <- app_assoc. split; [reflexivity|].
    constructor; [|assumption]. split; reflexivity.
Qed.

End Composer.

(** With valid headers and a directory the run is the listing, the print
    and the attachment loop, started on the message that holds the text
    and the three headers. *)
Lemma create_message_dir (cv : imaging) (hf : Mail.header_factory)
      (fs : OS.filesystem)
      (message email_from email_to subject folder : string)
      (suffix : Utils.str_or_list) (max_image_size : Z)
      (entries : list string) :
  valid_headers email_from email_to subject ->
  fs folder = Some (OS.Dir entries) ->
  let files := filter (fun f => Utils.mem (Utils.file_suffix_of f)
                                          (Utils.str2list suffix)) entries in
  let msg0 := composed hf message email_from email_to subject [] in
  let loop := for_each files
                (Utils.attach_file cv fs folder max_image_size) msg0 in
  Utils.create_message cv hf fs message email_from email_to subject folder
                       suffix max_image_size
  = (ListDir folder ::
     PrintFoundFiles (List.length files) (Utils.str2list suffix) folder files
     :: trace loop,
     outcome loop).
Proof.
  intros (Hto & Hfrom & Hsubject) H files msg0 loop.
  unfold Utils.create_message.
  unfold OS.exists_. rewrite H. cbn [assert_].
  rewrite (bind_Ok _ _ [] tt) by reflexivity. cbn [app].
  unfold Mail.setitem. rewrite Hto.
  erewrite (bind_Ok (lift _)) by reflexivity. cbn [app trace outcome fst snd].
  rewrite Hfrom.
  erewrite (bind_Ok (lift _)) by reflexivity. cbn [app trace outcome fst snd].
  rewrite Hsubject.
  erewrite (bind_Ok (lift _)) by reflexivity. cbn [app trace outcome fst snd].
  erewrite bind_Ok
    by (apply (find_files_with_suffix_dir fs folder entries (Utils.Lst _) H)).
  cbn [Utils.str2list app].
  fold files. unfold emit. erewrite bind_Ok by reflexivity.
  reflexivity.
Qed.

(** A run that returns a message had valid headers and a directory. *)
Lemma create_message_Ok_dir (cv : imaging) (hf : Mail.header_factory)
      (fs : OS.filesystem)
      (message email_from email_to subject folder : string)
      (suffix : Utils.str_or_list) (max_image_size : Z)
      (t : list event) (msg : Mail.EmailMessage) :
  Utils.create_message cv hf fs message email_from email_to subject folder
                       suffix max_image_size = (t, Ok msg) ->
  valid_headers email_from email_to subject /\
  exists entries, fs folder = Some (OS.Dir entries).
Proof.
  intros H. unfold Utils.create_message, OS.exists_ in H.
  destruct (fs folder) as [[content | entries]|] eqn:E;
    [| |discriminate H].
  - exfalso. cbn [assert_] in H.
    rewrite (bind_Ok _ _ [] tt) in H by reflexivity.
    unfold Mail.setitem in H.
    destruct (Mail.single_line email_to); [|discriminate H].
    erewrite (bind_Ok (lift _)) in H by reflexivity.
    cbn [app trace outcome fst snd] in H.
    destruct (Mail.single_line email_from); [|discriminate H].
    erewrite (bind_Ok (lift _)) in H by reflexivity.
    cbn [app trace outcome fst snd] in H.
    destruct (Mail.single_line subject); [|discriminate H].
    erewrite (bind_Ok (lift _)) in H by reflexivity.
    cbn [app trace outcome fst snd] in H.
    unfold Utils.find_files_with_suffix, OS.exists_, OS.listdir in H.
    rewrite E in H. discriminate H.
  - split; [|exists entries; reflexivity].
    cbn [assert_] in H.
    rewrite (bind_Ok _ _ [] tt) in H by reflexivity.
    unfold Mail.setitem in H. unfold valid_headers.
    destruct (Mail.single_line email_to); [|discriminate H].
    erewrite (bind_Ok (lift _)) in H by reflexivity.
    cbn [app trace outcome fst snd] in H.
    destruct (Mail.single_line email_from); [|discriminate H].
    erewrite (bind_Ok (lift _)) in H by reflexivity.
    cbn [app trace outcome fst snd] in H.
    destruct (Mail.single_line subject); [|discriminate H].
    repeat split.
Qed.

(** C6: every attachment of a message built by the Attachment Composer is
    declared with the constant maintype ["image"] and with the subtype equal
    to the attached file's extension, the segment after its last dot,
    whichever branch (image or raw bytes) produced its data. *)
Theorem C6_attachment_declared_type (cv : imaging)
        (hf : Mail.header_factory) (fs : OS.filesystem)
        (message email_from email_to subject folder : string)
        (suffix : Utils.str_or_list) (max_image_size : Z)
        (t : list event) (msg : Mail.EmailMessage) :
  Utils.create_message cv hf fs message email_from email_to subject folder
                       suffix max_image_size = (t, Ok msg) ->
  exists files,
    outcome (Utils.find_files_with_suffix fs folder suffix) = Ok files /\
    Forall2 (fun file att =>
               Mail.subtype att = Utils.file_suffix_of file /\
               final_segment file (Mail.subtype att) /\
               Mail.maintype att = "image")
            files (Mail.attachments msg).
Proof.
  intros H. destruct (create_message_Ok_dir _ _ _ _ _ _ _ _ _ _ _ _ H)
    as [V [entries E]].
  rewrite (create_message_dir cv hf fs _ _ _ _ _ suffix max_image_size _ V E)
    in H.
  rewrite (find_files_with_suffix_dir _ _ _ suffix E).
  eexists. split; [reflexivity|].
  match type of H with (_, outcome ?l) = _ => destruct l as [t' r] eqn:L end.
  cbn [trace outcome fst snd] in H. inversion H; subst.
  apply for_each_attach_Ok in L. destruct L as (_ & _ & atts & Ha & HF).
  cbn in Ha. rewrite Ha.
  eapply Forall2_impl; [|exact HF].
  intros file att [Hs Hm]. split; [assumption|]. split; [|assumption].
  rewrite Hs. apply final_segment_file_suffix_of.
Qed.

(** *** The body that [set_content] keeps *)








(** C5: given a folder path that does not exist, the File Finder, the
    Attachment Composer and the Address Extractor each fail with the
    NotFoundError of that folder; the failure is the first thing that
    happens (no event precedes it) and no value is returned. *)
Theorem C5_missing_folder (cv : imaging) (hf : Mail.header_factory)
        (fs : OS.filesystem) (folder : string) :
  fs folder = None ->
  (forall suffix,
      Utils.find_files_with_suffix fs folder suffix
      = ([], Raise (NotFoundError ("Folder " ++ folder)))) /\
  (forall message email_from email_to subject suffix max_image_size,
      Utils.create_message cv hf fs message email_from email_to subject
                           folder suffix max_image_size
      = ([], Raise (NotFoundError ("Folder " ++ folder)))) /\
  (forall file_suffix,
      Utils.process_email_list fs folder file_suffix
      = ([], Raise (NotFoundError ("Folder " ++ folder)))).
Proof.
  intros H. repeat split; intros.
  - apply find_files_with_suffix_missing, H.
  - unfold Utils.create_message, OS.exists_. rewrite H. reflexivity.
  - unfold Utils.process_email_list, OS.exists_. rewrite H. reflexivity.
Qed.

(** ** [endswith] and the image classification helper *)

Lemma endswith_refl (s : string) : Py.endswith s s = true.
Proof. destruct s; cbn [Py.endswith]; rewrite String.eqb_refl; reflexivity. Qed.

Lemma endswith_spec (s suffix : string) :
  Py.endswith s suffix = true <-> exists stem, s = (stem ++ suffix)%string.
Proof.
  split.
  - induction s as [|c s IH]; cbn [Py.endswith]; intros H;
      apply orb_true_iff in H; destruct H as [H | H];
      try (apply String.eqb_eq in H; subst; exists ""; reflexivity).
    + discriminate.
    + destruct (IH H) as [stem ->]. exists (String c stem). reflexivity.
  - intros [stem ->]. induction stem as [|c stem IH].
    + apply endswith_refl.
    + cbn [String.append Py.endswith]. rewrite IH. apply orb_true_r.
Qed.

(** A suffix of [s ++ t] either fits inside [t] or reaches back over it. *)
Lemma endswith_app_cases (s t suffix : string) :
  Py.endswith (s ++ t) suffix = true ->
  Py.endswith t suffix = true \/ Py.endswith suffix t = true.
Proof.
  induction s as [|c s IH]; cbn [String.append Py.endswith]; intros H.
  - left. assumption.
  - apply orb_true_iff in H. destruct H as [H | H].
    + apply String.eqb_eq in H. subst suffix. right.
      apply endswith_spec. exists (String c s). reflexivity.
    + apply IH, H.
Qed.

Lemma endswith_any_app_false (s t : string) (suffixes : list string) :
  forallb (fun e => negb (Py.endswith t e) && negb (Py.endswith e t))
          suffixes = true ->
  Py.endswith_any (s ++ t) suffixes = false.
Proof.
  unfold Py.endswith_any. intros H.
  destruct (existsb (Py.endswith (s ++ t)) suffixes) eqn:E; [|reflexivity].
  apply existsb_exists in E. destruct E as [e [He Hs]].
  rewrite forallb_forall in H. specialize (H e He).
  apply andb_true_iff in H. destruct H as [H1 H2].
  apply endswith_app_cases in Hs.
  destruct Hs as [Hs | Hs]; rewrite Hs in *; discriminate.
Qed.

Lemma lower_app (s t : string) :
  Py.lower (s ++ t) = (Py.lower s ++ Py.lower t)%string.
Proof.
  induction s as [|c s IH]; [reflexivity|].
  cbn [String.append Py.lower]. rewrite IH. reflexivity.
Qed.

(** A relative name joined to a folder is the name itself (empty folder)
    or ends with a separator followed by the name. *)
Lemma join_shape (a p : string) :
  OS.startswith_slash p = false ->
  OS.join a p = p \/ exists stem, OS.join a p = (stem ++ "/" ++ p)%string.
Proof.
  intros Hp. unfold OS.join. rewrite Hp.
  destruct a as [|c a]; [left; reflexivity|].
  cbn [Py.nonempty negb orb].
  destruct (Py.endswith (String c a) "/") eqn:E.
  - apply endswith_spec in E. destruct E as [stem E]. rewrite E.
    right. exists stem. apply append_assoc.
  - right. exists (String c a). reflexivity.
Qed.

(** A file whose whole name is an image suffix is not classified as an
    image: its path ends with a separator, not a dot, before the suffix. *)
Lemma dotless_suffix_not_image (folder name : string) :
  In name image_suffixes ->
  Py.endswith_any (Py.lower (OS.join folder name)) Utils.image_extensions
  = false.
Proof.
  intros Hin.
  assert (Hs : OS.startswith_slash name = false).
  { cbn in Hin. intuition (subst; reflexivity). }
  destruct (join_shape folder name Hs) as [E | [stem E]]; rewrite E.
  - cbn in Hin. intuition (subst; reflexivity).
  - rewrite lower_app. apply endswith_any_app_false.
    cbn in Hin. intuition (subst; reflexivity).
Qed.

Lemma is_file_image_exists (fs : OS.filesystem) (path : string)
      (n : OS.node) :
  fs path = Some n ->
  Utils.is_file_image fs path
  = ([], Ok (Py.endswith_any (Py.lower path) Utils.image_extensions)).
Proof.
  intros H. unfold Utils.is_file_image, OS.exists_. rewrite H. reflexivity.
Qed.

Lemma endswith_any_false (s : string) (suffixes : list string) :
  (forall e, In e suffixes -> ~ exists stem, s = (stem ++ e)%string) ->
  Py.endswith_any s suffixes = false.
Proof.
  intros H. unfold Py.endswith_any.
  destruct (existsb (Py.endswith s) suffixes) eqn:E; [|reflexivity].
  apply existsb_exists in E. destruct E as [e [He Hs]].
  apply endswith_spec in Hs. exfalso. exact (H e He Hs).
Qed.

(** C10: called on an existing path whose lower-cased name ends with none
    of [.png .jpg .jpeg .tiff .bmp .gif], [image2bytes] fails at entry with
    the "is not an image" assertion, before any file contents are read (the
    trace is empty), and so returns no bytes. *)
Theorem C10_image2bytes_rejects_non_image (cv : imaging)
        (fs : OS.filesystem) (path : string) (max_size : Z) (n : OS.node) :
  fs path = Some n ->
  (forall ext, In ext Utils.image_extensions ->
               ~ exists stem, Py.lower path = (stem ++ ext)%string) ->
  Utils.image2bytes cv fs path max_size
  = ([], Raise (AssertionError (path ++ " is not an image"))).
Proof.
  intros H Hext. unfold Utils.image2bytes.
  rewrite (is_file_image_exists fs path n H).
  rewrite (endswith_any_false _ _ Hext).
  unfold OS.exists_. rewrite H. reflexivity.
Qed.

(** An attachment added by one turn of the loop is still there at the end. *)
Lemma for_each_attach_In (cv : imaging) (fs : OS.filesystem)
      (folder : string) (max_image_size : Z) (file : string)
      (a : Mail.attachment) (t1 : list event) :
  (forall m, Utils.attach_file cv fs folder max_image_size m file
             = (t1, Ok (Mail.attach m a))) ->
  forall (files : list string) (msg msg' : Mail.EmailMessage)
         (t : list event),
    In file files ->
    for_each files (Utils.attach_file cv fs folder max_image_size) msg
    = (t, Ok msg') ->
    In a (Mail.attachments msg').
Proof.
  intros Hfile. induction files as [|x files IH]; intros msg msg' t Hin H.
  - contradiction.
  - cbn [for_each] in H. apply bind_Ok_inv in H.
    destruct H as (t2 & m1 & t3 & H1 & H2 & _).
    destruct Hin as [-> | Hin].
    + rewrite Hfile in H1. inversion H1; subst.
      apply for_each_attach_Ok in H2. destruct H2 as (_ & _ & atts & Ha & _).
      rewrite Ha. cbn [Mail.attachments Mail.attach].
      apply in_or_app. left. apply in_or_app. right.
      left; reflexivity.
    + eapply IH; eassumption.
Qed.

(** C9: a file whose whole, dotless name is an image suffix (such as
    [jpg]) is matched by the File Finder when that suffix is in the filter,
    is classified as non-image by the image classification helper, and is
    therefore attached by the Attachment Composer as its raw bytes,
    unmodified, with the whole file name as subtype. *)
Theorem C9_dotless_image_name (cv : imaging) (hf : Mail.header_factory)
        (fs : OS.filesystem)
        (folder name : string) (entries : list string)
        (content : list byte) (S : Utils.str_or_list)
        (max_image_size : Z) :
  In name image_suffixes ->
  fs folder = Some (OS.Dir entries) ->
  In name entries ->
  In name (Utils.str2list S) ->
  fs (OS.join folder name) = Some (OS.File content) ->
  let raw := {| Mail.data := content;
                Mail.maintype := "image";
                Mail.subtype := name |} in
  (exists files,
      Utils.find_files_with_suffix fs folder S = ([ListDir folder], Ok files)
      /\ In name files) /\
  Utils.is_file_image fs (OS.join folder name) = ([], Ok false) /\
  (forall msg,
      Utils.attach_file cv fs folder max_image_size msg name
      = ([ReadBytes (OS.join folder name)], Ok (Mail.attach msg raw))) /\
  (forall message email_from email_to subject t msg,
      Utils.create_message cv hf fs message email_from email_to subject
                           folder S max_image_size = (t, Ok msg) ->
      In raw (Mail.attachments msg)).
Proof.
  intros Hname Hdir Hentry Hfilter Hfile raw.
  assert (Hsuffix : Utils.file_suffix_of name = name).
  { cbn in Hname. intuition (subst; reflexivity). }
  assert (Himg : Utils.is_file_image fs (OS.join folder name)
                 = ([], Ok false)).
  { rewrite (is_file_image_exists _ _ _ Hfile).
    rewrite (dotless_suffix_not_image folder name Hname). reflexivity. }
  assert (Hfiles : In name
            (filter (fun f => Utils.mem (Utils.file_suffix_of f)
                                        (Utils.str2list S)) entries)).
  { apply filter_In. split; [assumption|].
    rewrite Hsuffix. apply mem_In. assumption. }
  assert (Hline : Mail.single_line (Mail.content_type "image" name) = true).
  { cbn in Hname. intuition (subst; reflexivity). }
  assert (Hattach : forall msg,
      Utils.attach_file cv fs folder max_image_size msg name
      = ([ReadBytes (OS.join folder name)], Ok (Mail.attach msg raw))).
  { intros msg. unfold Utils.attach_file. rewrite Himg.
    fold (Utils.file_suffix_of name). rewrite Hsuffix.
    unfold OS.read_bytes, Mail.add_attachment. rewrite Hfile, Hline.
    reflexivity. }
  split; [|split; [|split]].
  - eexists. split; [apply find_files_with_suffix_dir, Hdir|exact Hfiles].
  - exact Himg.
  - exact Hattach.
  - intros message email_from email_to subject t msg H.
    destruct (create_message_Ok_dir _ _ _ _ _ _ _ _ _ _ _ _ H) as [V _].
    rewrite (create_message_dir cv hf fs _ _ _ _ _ S max_image_size _ V Hdir)
      in H.
    match type of H with (_, outcome ?l) = _ => destruct l as [t' r] eqn:L end.
    cbn [trace outcome fst snd] in H. inversion H; subst.
    eapply (for_each_attach_In cv fs folder max_image_size name raw);
      [exact Hattach|exact Hfiles|exact L].
Qed.

(** ** The Address Extractor *)

Lemma non_ascii_not_linebreak (c : ascii) :
  Py.non_ascii c = true -> Py.is_linebreak c = false.
Proof.
  destruct c as [[] [] [] [] [] [] [] []]; intros H;
    solve [reflexivity | discriminate H].
Qed.

(** A character that ends no line and occurs in a text occurs in one of
    its lines. *)
Lemma splitlines_reflects (q : ascii -> bool) (s : string) :
  (forall c, q c = true -> Py.is_linebreak c = false) ->
  Py.contains q s = true ->
  existsb (Py.contains q) (Py.splitlines s) = true.
Proof.
  intros Hq.
  assert (G : forall n s, String.length s <= n ->
                Py.contains q s = true ->
                existsb (Py.contains q) (Py.splitlines s) = true).
  { induction n as [|n IH]; intros s0 Hlen H.
    - destruct s0; [discriminate H|cbn in Hlen; lia].
    - destruct s0 as [|c s0]; [discriminate H|].
      cbn [String.length] in Hlen. cbn [Py.contains] in H.
      cbn [Py.splitlines]. destruct (Py.is_linebreak c) eqn:Hc.
      + assert (Hqc : q c = false).
        { destruct (q c) eqn:E; [|reflexivity].
          rewrite (Hq c E) in Hc. discriminate Hc. }
        rewrite Hqc in H. cbn [orb] in H.
        assert (Hrest : existsb (Py.contains q) ("" :: Py.splitlines s0)
                        = true).
        { cbn [existsb Py.contains orb]. apply IH; [lia|assumption]. }
        destruct c as [[] [] [] [] [] [] [] []]; try exact Hrest.
        destruct s0 as [|d s1]; [exact Hrest|].
        destruct d as [[] [] [] [] [] [] [] []]; exact Hrest.
      + destruct (q c) eqn:Hqc.
        * destruct (Py.splitlines s0); cbn [existsb Py.contains];
            rewrite Hqc; reflexivity.
        * cbn [orb] in H. pose proof (IH s0 ltac:(lia) H) as E.
          destruct (Py.splitlines s0) as [|h t]; [discriminate E|].
          cbn [existsb Py.contains] in *. rewrite Hqc. exact E. }
  apply (G (String.length s) s (le_n _)).
Qed.

Lemma universal_newlines_reflects (q : ascii -> bool) (s : string) :
  q "013"%char = false ->
  Py.contains q s = true ->
  Py.contains q (Py.universal_newlines s) = true.
Proof.
  intros Hcr.
  assert (G : forall n s, String.length s <= n ->
                Py.contains q s = true ->
                Py.contains q (Py.universal_newlines s) = true).
  { induction n as [|n IH]; intros s0 Hlen H.
    - destruct s0; [discriminate H|cbn in Hlen; lia].
    - destruct s0 as [|c s0]; [discriminate H|].
      cbn [String.length] in Hlen. cbn [Py.contains] in H.
      assert (Hplain : Py.contains q (String c (Py.universal_newlines s0))
                       = true).
      { cbn [Py.contains]. destruct (q c); [reflexivity|].
        cbn [orb] in *. apply IH; [lia|assumption]. }
      cbn [Py.universal_newlines].
      destruct c as [[] [] [] [] [] [] [] []]; try exact Hplain.
      rewrite Hcr in H. cbn [orb] in H.
      destruct s0 as [|d s1]; [discriminate H|].
      assert (Hlone : Py.contains q
                        (String "010" (Py.universal_newlines (String d s1)))
                      = true).
      { cbn [Py.contains]. rewrite (IH (String d s1)); [|lia|exact H].
        apply orb_true_r. }
      destruct d as [[] [] [] [] [] [] [] []]; try exact Hlone.
      cbn [Py.contains] in *. destruct (q "010"%char); [reflexivity|].
      cbn [orb] in *. apply IH; [cbn [String.length] in Hlen; lia|exact H]. }
  apply (G (String.length s) s (le_n _)).
Qed.

(** Text whose lines are ASCII is ASCII. *)
Lemma ascii_lines_ascii (s : string) :
  existsb (Py.contains Py.non_ascii)
          (Py.splitlines (Py.universal_newlines s)) = false ->
  Py.contains Py.non_ascii s = false.
Proof.
  intros H. destruct (Py.contains Py.non_ascii s) eqn:E; [|reflexivity].
  rewrite (splitlines_reflects Py.non_ascii _ non_ascii_not_linebreak
             (universal_newlines_reflects Py.non_ascii s eq_refl E)) in H.
  discriminate H.
Qed.

(** C3: on a folder holding one file (matching the suffix filter) whose
    lines are ["Alice <alice@example.com>;"] and
    ["notanemail bob@test.org"], the Address Extractor returns exactly
    [["alice@example.com"; "bob@test.org"]]: first-occurrence order,
    lower-cased, angle brackets stripped. *)
Theorem C3_address_extractor_scenario (fs : OS.filesystem)
        (folder file file_suffix : string) (content : list byte) :
  fs folder = Some (OS.Dir [file]) ->
  final_segment file file_suffix ->
  fs (OS.join folder file) = Some (OS.File content) ->
  Py.splitlines (Py.universal_newlines (string_of_list_byte content))
  = ["Alice <alice@example.com>;"; "notanemail bob@test.org"] ->
  Utils.process_email_list fs folder file_suffix
  = ([ListDir folder; ReadText (OS.join folder file);
      PrintFoundEmails 2 folder],
     Ok ["alice@example.com"; "bob@test.org"]).
Proof.
  intros Hdir Hseg Hfile Hlines.
  unfold Utils.process_email_list, OS.exists_. rewrite Hdir.
  cbn [assert_]. rewrite (bind_Ok _ _ [] tt) by reflexivity. cbn [app].
  erewrite bind_Ok
    by (apply (find_files_with_suffix_dir fs folder [file]
                 (Utils.Str file_suffix) Hdir)).
  cbn [filter Utils.str2list Utils.mem existsb].
  rewrite (file_suffix_of_final_segment _ _ Hseg), String.eqb_refl.
  cbn [orb for_each]. unfold OS.read_text. rewrite Hfile.
  rewrite ascii_lines_ascii by (rewrite Hlines; reflexivity).
  unfold bind, emit, ret. cbn [app]. rewrite Hlines.
  reflexivity.
Qed.

(** ** The confirmation prompt *)

Section Prompt.

Import Utils.

Lemma rejected_test (inp : string) :
  rejected inp <->
  negb (String.eqb inp "Y") && negb (String.eqb inp "n") = true.
Proof.
  unfold rejected.
  rewrite andb_true_iff, !negb_true_iff, !String.eqb_neq. reflexivity.
Qed.

Lemma prompt_loop_eq (inp : string) (stdin : list string) :
  prompt_loop inp stdin =
  if negb (String.eqb inp "Y") && negb (String.eqb inp "n") then
    match stdin with
    | [] => (["You did not press Y or n, try again"], Waiting)
    | inp' :: stdin' =>
        let (out, r) := prompt_loop inp' stdin' in
        ("You did not press Y or n, try again" ::
         ("You pressed " ++ inp')%string :: out, r)
    end
  else if String.eqb inp "n" then
    ([], SystemExit (ExitStr "You pressed n, breaking"))
  else ([], Returned stdin).
Proof. destruct stdin; reflexivity. Qed.

Lemma prompt_loop_rejected (inp : string) (stdin : list string) :
  rejected inp ->
  snd (prompt_loop inp stdin) =
  match stdin with
  | [] => Waiting
  | inp' :: stdin' => snd (prompt_loop inp' stdin')
  end.
Proof.
  intros H. apply rejected_test in H. rewrite prompt_loop_eq, H.
  destruct stdin as [|inp' stdin']; [reflexivity|].
  destruct (prompt_loop inp' stdin'); reflexivity.
Qed.

Lemma press_snd (inp : string) (stdin : list string) :
  snd (press_Yn_to_continue (inp :: stdin)) = snd (prompt_loop inp stdin).
Proof.
  unfold press_Yn_to_continue. destruct (prompt_loop inp stdin).
  reflexivity.
Qed.

(** After a rejected first line the prompt stands where a fresh prompt
    on the remaining lines stands. *)
Lemma press_rejected (inp : string) (stdin : list string) :
  rejected inp ->
  snd (press_Yn_to_continue (inp :: stdin))
  = snd (press_Yn_to_continue stdin).
Proof.
  intros H. rewrite press_snd, prompt_loop_rejected by assumption.
  destruct stdin as [|inp' stdin']; [reflexivity|].
  rewrite press_snd. reflexivity.
Qed.

Lemma press_skip (pre stdin : list string) :
  Forall rejected pre ->
  snd (press_Yn_to_continue (pre ++ stdin))
  = snd (press_Yn_to_continue stdin).
Proof.
  induction 1 as [|inp pre Hinp _ IH]; [reflexivity|].
  cbn [app]. rewrite press_rejected by assumption. exact IH.
Qed.

Lemma press_Y (stdin : list string) :
  snd (press_Yn_to_continue ("Y" :: stdin)) = Returned stdin.
Proof. rewrite press_snd, prompt_loop_eq. reflexivity. Qed.

Lemma press_n (stdin : list string) :
  snd (press_Yn_to_continue ("n" :: stdin))
  = SystemExit (ExitStr "You pressed n, breaking").
Proof. rewrite press_snd, prompt_loop_eq. reflexivity. Qed.

Lemma rejected_dec (inp : string) :
  inp = "Y" \/ inp = "n" \/ rejected inp.
Proof.
  unfold rejected.
  destruct (String.eqb_spec inp "Y"); [left; assumption|].
  destruct (String.eqb_spec inp "n"); [right; left; assumption|].
  right; right; split; assumption.
Qed.

Lemma press_Returned_inv (stdin rest : list string) :
  snd (press_Yn_to_continue stdin) = Returned rest ->
  exists pre, stdin = pre ++ "Y" :: rest /\ Forall rejected pre.
Proof.
  induction stdin as [|inp stdin IH]; [discriminate|].
  destruct (rejected_dec inp) as [-> | [-> | Hr]].
  - rewrite press_Y. intros H. inversion H; subst.
    exists []. split; [reflexivity|constructor].
  - rewrite press_n. discriminate.
  - rewrite press_rejected by assumption. intros H.
    destruct (IH H) as (pre & -> & Hpre).
    exists (inp :: pre). split; [reflexivity|].
    constructor; assumption.
Qed.

(** After a run of rejected lines the last thing written is the request
    to try again. *)
Lemma prompt_loop_reprompts (stdin : list string) :
  forall inp,
    rejected inp -> Forall rejected stdin ->
    List.last (fst (prompt_loop inp stdin)) ""
    = "You did not press Y or n, try again".
Proof.
  induction stdin as [|inp' stdin IH]; intros inp Hinp Hall;
    rewrite prompt_loop_eq; apply rejected_test in Hinp; rewrite Hinp.
  - reflexivity.
  - inversion Hall; subst.
    match goal with H : rejected inp' |- _ => specialize (IH inp' H) end.
    match goal with H : Forall rejected stdin |- _ => specialize (IH H) end.
    destruct (prompt_loop inp' stdin) as [out r]. cbn [fst] in *.
    destruct out as [|o out]; [discriminate IH|].
    exact IH.
Qed.

End Prompt.

(** C8: over the lines of standard input, the confirmation prompt does not
    return to its caller while every line read so far is neither ["Y"] nor
    ["n"]: it asks again and waits for another line.  The first line that
    is ["n"] ends the process with a non-zero exit status, the first line
    that is ["Y"] returns control to the caller, and a return is only ever
    caused by a ["Y"] line that follows rejected lines. *)
Theorem C8_confirmation_prompt :
  (forall stdin,
      Forall rejected stdin ->
      snd (Utils.press_Yn_to_continue stdin) = Utils.Waiting /\
      (stdin <> [] ->
       List.last (fst (Utils.press_Yn_to_continue stdin)) ""
       = "You did not press Y or n, try again")) /\
  (forall pre post,
      Forall rejected pre ->
      exists arg,
        snd (Utils.press_Yn_to_continue (pre ++ "n" :: post))
        = Utils.SystemExit arg /\
        Utils.exit_status arg <> 0%Z) /\
  (forall pre post,
      Forall rejected pre ->
      snd (Utils.press_Yn_to_continue (pre ++ "Y" :: post))
      = Utils.Returned post) /\
  (forall stdin rest,
      snd (Utils.press_Yn_to_continue stdin) = Utils.Returned rest ->
      exists pre, stdin = pre ++ "Y" :: rest /\ Forall rejected pre).
Proof.
  split; [|split; [|split]].
  - intros stdin Hall. split.
    + rewrite <- (app_nil_r stdin), press_skip by assumption. reflexivity.
    + intros Hne. destruct stdin as [|inp stdin]; [contradiction|].
      inversion Hall; subst. unfold Utils.press_Yn_to_continue.
      pose proof (prompt_loop_reprompts stdin inp) as L.
      destruct (Utils.prompt_loop inp stdin) as [out r]. cbn [fst] in *.
      destruct out as [|o out]; [now discriminate L|].
      now apply L.
  - intros pre post Hall. eexists.
    rewrite press_skip, press_n by assumption.
    split; [reflexivity|discriminate].
  - intros pre post Hall. rewrite press_skip, press_Y by assumption.
    reflexivity.
  - apply press_Returned_inv.
Qed.

(** ** Base64 *)

Ltac div_mod_lia := zify; Z.to_euclidean_division_equations; lia.

Local Open Scope N_scope.

Section Base64Facts.

Import Base64.

Lemma lor_shiftl_add (x y k : N) :
  y < 2 ^ k -> N.lor (N.shiftl x k) y = x * 2 ^ k + y.
Proof.
  intros Hy. rewrite N.shiftl_mul_pow2.
  assert (D : N.land (x * 2 ^ k) y = 0).
  { apply N.bits_inj_0. intros n. rewrite N.land_spec.
    destruct (N.lt_ge_cases n k) as [Hn | Hn].
    - rewrite N.mul_pow2_bits_low by assumption. reflexivity.
    - destruct (N.eq_dec y 0) as [-> | Hy0].
      + rewrite N.bits_0. apply andb_false_r.
      + rewrite (N.bits_above_log2 y n); [apply andb_false_r|].
        apply N.lt_le_trans with k; [|assumption].
        apply N.log2_lt_pow2; [lia|assumption]. }
  rewrite <- N.lxor_lor by assumption.
  symmetry. apply N.add_nocarry_lxor. assumption.
Qed.

Lemma to_N_bound (b : byte) : Byte.to_N b < 256.
Proof. pose proof (Byte.to_N_bounded b). lia. Qed.

Lemma quantum_eq (a b c : byte) :
  quantum a b c = Byte.to_N a * 65536 + Byte.to_N b * 256 + Byte.to_N c.
Proof.
  unfold quantum. pose proof (to_N_bound a). pose proof (to_N_bound b).
  pose proof (to_N_bound c).
  rewrite (lor_shiftl_add (Byte.to_N b) (Byte.to_N c) 8) by assumption.
  rewrite lor_shiftl_add
    by (change (2 ^ 8) with 256; change (2 ^ 16) with 65536; lia).
  change (2 ^ 8) with 256; change (2 ^ 16) with 65536. lia.
Qed.

Lemma sextet_eq (n k : N) : sextet n k = (n / 2 ^ (6 * k)) mod 64.
Proof.
  unfold sextet. rewrite N.shiftr_div_pow2.
  change 63 with (N.ones 6). rewrite N.land_ones. reflexivity.
Qed.

Lemma sextet_lt (n k : N) : sextet n k < 64.
Proof. rewrite sextet_eq. apply N.mod_lt. discriminate. Qed.

Lemma group_eq (i1 i2 i3 i4 : N) :
  i2 < 64 -> i3 < 64 -> i4 < 64 ->
  group i1 i2 i3 i4 = i1 * 262144 + i2 * 4096 + i3 * 64 + i4.
Proof.
  intros H2 H3 H4. unfold group.
  rewrite (lor_shiftl_add i3 i4 6) by assumption.
  change (2 ^ 6) with 64.
  rewrite (lor_shiftl_add i2 _ 12) by (change (2 ^ 12) with 4096; lia).
  change (2 ^ 12) with 4096.
  rewrite (lor_shiftl_add i1 _ 18) by (change (2 ^ 18) with 262144; lia).
  change (2 ^ 18) with 262144. lia.
Qed.

Lemma byte_of_N_eq (n : N) (b : byte) :
  n mod 256 = Byte.to_N b -> byte_of_N n = b.
Proof.
  intros H. unfold byte_of_N. change 255 with (N.ones 8).
  rewrite N.land_ones. change (2 ^ 8) with 256.
  rewrite H, Byte.of_to_N. reflexivity.
Qed.

Lemma regroup (n : N) :
  n < 16777216 ->
  group (sextet n 3) (sextet n 2) (sextet n 1) (sextet n 0) = n.
Proof.
  intros H. rewrite group_eq by apply sextet_lt.
  rewrite !sextet_eq.
  change (2 ^ (6 * 3)) with 262144. change (2 ^ (6 * 2)) with 4096.
  change (2 ^ (6 * 1)) with 64. change (2 ^ (6 * 0)) with 1.
  div_mod_lia.
Qed.


Lemma decode_full (a b c : byte) :
  let n := quantum a b c in
  byte_of_N (N.shiftr n 16) = a /\
  byte_of_N (N.shiftr n 8) = b /\
  byte_of_N n = c.
Proof.
  intros n. subst n. rewrite quantum_eq.
  pose proof (to_N_bound a). pose proof (to_N_bound b).
  pose proof (to_N_bound c).
  repeat split; apply byte_of_N_eq; rewrite ?N.shiftr_div_pow2;
    change (2 ^ 16) with 65536; change (2 ^ 8) with 256; div_mod_lia.
Qed.


Lemma quantum_lt (a b c : byte) : quantum a b c < 16777216.
Proof.
  rewrite quantum_eq. pose proof (to_N_bound a). pose proof (to_N_bound b).
  pose proof (to_N_bound c). lia.
Qed.

Lemma sextet_low_zero (a b : byte) : sextet (quantum a b x00) 0 = 0.
Proof.
  rewrite sextet_eq, quantum_eq. change (2 ^ (6 * 0)) with 1.
  change (Byte.to_N x00) with 0. div_mod_lia.
Qed.

Lemma sextet_mid_zero (a : byte) : sextet (quantum a x00 x00) 1 = 0.
Proof.
  rewrite sextet_eq, quantum_eq. change (2 ^ (6 * 1)) with 64.
  change (Byte.to_N x00) with 0. div_mod_lia.
Qed.

Lemma alphabet_table (i : N) :
  i < 64 ->
  b64index (b64char i) = Some i /\ std_char (b64char i) = true.
Proof.
  intros Hi.
  assert (T : forallb (fun j =>
                match b64index (b64char j) with
                | Some k => N.eqb k j && std_char (b64char j)
                | None => false
                end) (map N.of_nat (seq 0 64)) = true)
    by (vm_compute; reflexivity).
  rewrite forallb_forall in T. specialize (T i).
  destruct (b64index (b64char i)) as [k|].
  - assert (In i (map N.of_nat (seq 0 64))) as Hin.
    { apply in_map_iff. exists (N.to_nat i). split; [apply N2Nat.id|].
      apply in_seq. lia. }
    apply T in Hin. apply andb_true_iff in Hin. destruct Hin as [E S].
    apply N.eqb_eq in E. subst k. split; [reflexivity|assumption].
  - assert (In i (map N.of_nat (seq 0 64))) as Hin.
    { apply in_map_iff. exists (N.to_nat i). split; [apply N2Nat.id|].
      apply in_seq. lia. }
    apply T in Hin. discriminate.
Qed.

Lemma b64index_sextet (n k : N) :
  b64index (b64char (sextet n k)) = Some (sextet n k).
Proof. apply alphabet_table, sextet_lt. Qed.

Lemma list_ind3 {A} (P : list A -> Prop) :
  P [] -> (forall a, P [a]) -> (forall a b, P [a; b]) ->
  (forall a b c l, P l -> P (a :: b :: c :: l)) ->
  forall l, P l.
Proof.
  intros H0 H1 H2 H3 l.
  enough (P l /\ (forall a, P (a :: l)) /\ (forall a b, P (a :: b :: l)))
    by tauto.
  induction l as [|x l (IH0 & IH1 & IH2)]; repeat split; auto.
Qed.

Lemma b64decode_b64encode (s : list byte) :
  b64decode (b64encode s) = Some s.
Proof.
  unfold b64encode. induction s as [|a|a b|a b c s IH] using list_ind3.
  - reflexivity.
  - cbn [b2a_base64 b64decode]. rewrite !b64index_sextet.
    change (b64index pad) with (@None N). cbn [Ascii.eqb].
    change (Ascii.eqb pad pad) with true. cbn [andb].
    rewrite <- (sextet_mid_zero a) at 1.
    rewrite <- (sextet_low_zero a x00).
    rewrite regroup by apply quantum_lt.
    destruct (decode_full a x00 x00) as (-> & _). reflexivity.
  - cbn [b2a_base64 b64decode]. rewrite !b64index_sextet.
    change (b64index pad) with (@None N).
    change (Ascii.eqb pad pad) with true. cbn iota.
    rewrite <- (sextet_low_zero a b).
    rewrite regroup by apply quantum_lt.
    destruct (decode_full a b x00) as (-> & -> & _). reflexivity.
  - cbn [b2a_base64 b64decode]. rewrite !b64index_sextet, IH.
    rewrite regroup by apply quantum_lt.
    destruct (decode_full a b c) as (-> & -> & ->). reflexivity.
Qed.


Lemma b2a_base64_std (s : list byte) :
  forallb std_char (b2a_base64 s) = true.
Proof.
  induction s as [|a|a b|a b c s IH] using list_ind3;
    cbn [b2a_base64 forallb];
    rewrite ?IH, ?(proj2 (alphabet_table _ (sextet_lt _ _)));
    reflexivity.
Qed.

Lemma translate_roundtrip (s : list ascii) :
  forallb std_char s = true ->
  translate "-" "+" "_" "/" (translate "+" "-" "/" "_" s) = s.
Proof.
  unfold translate. induction s as [|c s IH]; [reflexivity|].
  cbn [forallb map]. intros H. apply andb_true_iff in H.
  destruct H as [Hc Hs]. rewrite (IH Hs). f_equal.
  unfold std_char in Hc. apply andb_true_iff in Hc.
  destruct Hc as [H1 H2]. apply negb_true_iff in H1, H2.
  destruct (Ascii.eqb_spec c "+") as [-> | _]; [reflexivity|].
  destruct (Ascii.eqb_spec c "/") as [-> | _]; [reflexivity|].
  rewrite H1, H2. reflexivity.
Qed.

Lemma urlsafe_b64decode_b64encode (s : list byte) :
  urlsafe_b64decode (urlsafe_b64encode s) = Some s.
Proof.
  unfold urlsafe_b64decode, urlsafe_b64encode.
  rewrite translate_roundtrip by apply b2a_base64_std.
  apply b64decode_b64encode.
Qed.


End Base64Facts.


Local Close Scope N_scope.

(** ** The resize decision of [image2bytes] *)

(** On a decodable image file, [image2bytes] encodes the decoded image as
    it is when its longer dimension is at most [max_size], and otherwise
    encodes what [cv2.resize] returns for the factor [max_size / longest]
    on both axes. *)
Lemma image2bytes_decoded (cv : imaging) (fs : OS.filesystem)
      (path : string) (max_size : Z) (bytes : list byte) (img : image cv)
      (rows cols : Z) :
  fs path = Some (OS.File bytes) ->
  Py.endswith_any (Py.lower path) Utils.image_extensions = true ->
  imdecode cv bytes = Some img ->
  shape cv img = (rows, cols) ->
  let longest := Z.max rows cols in
  let ext := ("." ++ Utils.file_suffix_of path)%string in
  ((longest <= max_size)%Z ->
   Utils.image2bytes cv fs path max_size
   = ([ImRead path], imencode cv ext img)) /\
  ((longest > max_size)%Z -> longest <> 0%Z ->
   Utils.image2bytes cv fs path max_size
   = ([ImRead path],
      match resize cv img (truediv cv max_size longest)
                   (truediv cv max_size longest) with
      | Ok img' => imencode cv ext img'
      | Raise e => Raise e
      end)).
Proof.
  intros Hfile Hext Hdec Hshape longest ext.
  assert (Hmax : nth (if (rows <? cols)%Z then 1%nat else 0%nat)
                     [rows; cols] 0%Z = longest).
  { unfold longest. destruct (Z.ltb_spec rows cols); cbn [nth]; lia. }
  unfold Utils.image2bytes.
  rewrite (is_file_image_exists fs path _ Hfile), Hext.
  unfold OS.exists_, Utils.imread. rewrite Hfile, Hdec.
  cbn [assert_ bind ret emit app]. rewrite Hshape, Hmax.
  fold (Utils.file_suffix_of path). fold ext.
  split.
  - intros Hle. destruct (Z.gtb_spec longest max_size); [lia|].
    cbn [bind ret lift app]. destruct (imencode cv ext img); reflexivity.
  - intros Hgt Hnz. destruct (Z.gtb_spec longest max_size); [|lia].
    destruct (Z.eqb_spec longest 0); [contradiction|].
    cbn [bind ret lift app].
    destruct (resize cv img (truediv cv max_size longest)
                     (truediv cv max_size longest)) as [img' | e];
      [|reflexivity].
    destruct (imencode cv ext img'); reflexivity.
Qed.

(** ** The serialized form *)

Lemma contains_app (p : ascii -> bool) (s t : string) :
  Py.contains p (s ++ t) = Py.contains p s || Py.contains p t.
Proof.
  induction s as [|c s IH]; [reflexivity|].
  cbn [String.append Py.contains]. rewrite IH. apply orb_assoc.
Qed.

Lemma split_by_fields_free (p : ascii -> bool) (s : string) :
  forall f, In f (Py.split_by p s) -> Py.contains p f = false.
Proof.
  induction s as [|c s IH]; cbn [Py.split_by]; intros f Hf.
  - destruct Hf as [<- | []]. reflexivity.
  - destruct (p c) eqn:Hc.
    + destruct Hf as [<- | Hf]; [reflexivity|apply IH, Hf].
    + destruct (Py.split_by p s) as [|h t].
      * destruct Hf as [<- | []]. cbn [Py.contains]. rewrite Hc. reflexivity.
      * destruct Hf as [<- | Hf].
        -- cbn [Py.contains]. rewrite Hc. apply IH. left. reflexivity.
        -- apply IH. right. assumption.
Qed.



Section MimeFacts.

Import Mime.

(** *** Lines and text *)







(** *** Pieces of the parser *)












End MimeFacts.

Section MimeParse.

Import Mime.

Variable hf : Mail.header_factory.















End MimeParse.

(** ** The serialization step *)


Lemma urlsafe_table (i : N) :
  (i < 64)%N ->
  is_urlsafe_char
    (let c := Base64.b64char i in
     if Ascii.eqb c "+" then "-"%char
     else if Ascii.eqb c "/" then "_"%char else c) = true.
Proof.
  intros Hi.
  assert (T : forallb (fun j =>
                is_urlsafe_char
                  (let c := Base64.b64char j in
                   if Ascii.eqb c "+" then "-"%char
                   else if Ascii.eqb c "/" then "_"%char else c))
                (map N.of_nat (seq 0 64)) = true)
    by (vm_compute; reflexivity).
  rewrite forallb_forall in T. apply T.
  apply in_map_iff. exists (N.to_nat i). split; [apply N2Nat.id|].
  apply in_seq. lia.
Qed.

Lemma urlsafe_b64encode_chars (s : list byte) :
  Forall (fun c => is_urlsafe_char c = true) (Base64.urlsafe_b64encode s).
Proof.
  unfold Base64.urlsafe_b64encode, Base64.translate, Base64.b64encode.
  induction s as [|a|a b|a b c s IH] using list_ind3;
    cbn [Base64.b2a_base64 map];
    repeat (constructor;
            try (apply (urlsafe_table _ (sextet_lt _ _)));
            try reflexivity).
  exact IH.
Qed.




(** ** The Image Resize Helper *)

Lemma cv_round_near (n d : Z) :
  (0 < d)%Z -> (2 * Z.abs (cv_round n d * d - n) <= d)%Z.
Proof.
  intros Hd. unfold cv_round.
  pose proof (Z.div_mod n d ltac:(lia)) as E.
  pose proof (Z.mod_pos_bound n d Hd) as B.
  set (q := (n / d)%Z) in *. set (r := (n mod d)%Z) in *.
  destruct (Z.ltb_spec (2 * r) d); [nia|].
  destruct (Z.ltb_spec d (2 * r)); [nia|].
  destruct (Z.even q); nia.
Qed.

Lemma cv_round_small (n d : Z) :
  (0 <= n)%Z -> (2 * n < d)%Z -> cv_round n d = 0%Z.
Proof.
  intros Hn Hd. unfold cv_round.
  rewrite Z.div_small, Z.mod_small by lia.
  destruct (Z.ltb_spec (2 * n) d); [reflexivity|lia].
Qed.

Lemma cv_round_pos (n d : Z) :
  (0 < d)%Z -> (d < 2 * n)%Z -> (0 < cv_round n d)%Z.
Proof.
  intros Hd Hn. pose proof (cv_round_near n d Hd). nia.
Qed.

(** The stand-in imaging library keeps the contract of [cv2.resize]. *)
Lemma sample_resize_contract : resize_contract Sample.cv.
Proof.
  intros [[rows0 cols0] px] rows cols m l Hshape Hrows Hcols Hl.
  cbn in Hshape. inversion Hshape; subst rows0 cols0. clear Hshape.
  cbv zeta. cbn [resize truediv Sample.cv fst snd].
  split; [|split].
  - intros Hsmall. destruct (Z.leb_spec m 0); [eexists; reflexivity|].
    cbn [orb].
    destruct Hsmall as [Hs | Hs].
    + rewrite (cv_round_small (rows * m) l) by nia.
      eexists; reflexivity.
    + rewrite (cv_round_small (cols * m) l) by nia.
      rewrite orb_true_r. eexists; reflexivity.
  - intros Hr Hc. destruct (Z.leb_spec m 0); [nia|]. cbn [orb].
    pose proof (cv_round_pos (rows * m) l Hl ltac:(lia)).
    pose proof (cv_round_pos (cols * m) l Hl ltac:(lia)).
    destruct (Z.leb_spec (cv_round (rows * m) l) 0); [lia|].
    destruct (Z.leb_spec (cv_round (cols * m) l) 0); [lia|].
    eexists; reflexivity.
  - intros img' H. destruct (Z.leb_spec m 0); [discriminate H|].
    cbn [orb] in H.
    destruct (Z.leb_spec (cv_round (rows * m) l) 0); [discriminate H|].
    destruct (Z.leb_spec (cv_round (cols * m) l) 0); [discriminate H|].
    cbn [orb] in H. inversion H; subst img'.
    exists (cv_round (rows * m) l), (cv_round (cols * m) l).
    pose proof (cv_round_near (rows * m) l Hl).
    pose proof (cv_round_near (cols * m) l Hl).
    cbn [shape Sample.cv fst]. repeat split; lia.
Qed.

(** C4: on a decodable image file, an image whose longer dimension is at
    most [max_size] is encoded as it was decoded.  An image whose longer
    dimension exceeds [max_size] is rescaled by [max_size / longest] when
    its shorter dimension scales to more than half a pixel: the longer
    dimension of the result is [max_size] and each dimension is within one
    pixel of the exact product, which keeps the aspect ratio up to
    rounding.  When the shorter dimension scales to less than half a pixel
    [cv2.resize] refuses the empty result and [image2bytes] raises instead
    of returning an image. *)
Theorem C4_resize_or_fail (cv : imaging) (fs : OS.filesystem)
        (path : string) (max_size : Z) (bytes : list byte) (img : image cv)
        (rows cols : Z) :
  resize_contract cv ->
  fs path = Some (OS.File bytes) ->
  Py.endswith_any (Py.lower path) Utils.image_extensions = true ->
  imdecode cv bytes = Some img ->
  shape cv img = (rows, cols) ->
  (0 < rows)%Z -> (0 < cols)%Z ->
  let longest := Z.max rows cols in
  let shortest := Z.min rows cols in
  let ext := ("." ++ Utils.file_suffix_of path)%string in
  ((longest <= max_size)%Z ->
   Utils.image2bytes cv fs path max_size
   = ([ImRead path], imencode cv ext img)) /\
  ((max_size < longest)%Z -> (longest < 2 * shortest * max_size)%Z ->
   exists img' rows' cols',
     resize cv img (truediv cv max_size longest)
            (truediv cv max_size longest) = Ok img' /\
     Utils.image2bytes cv fs path max_size
     = ([ImRead path], imencode cv ext img') /\
     shape cv img' = (rows', cols') /\
     Z.max rows' cols' = max_size /\
     (Z.abs (rows' * longest - rows * max_size) < longest)%Z /\
     (Z.abs (cols' * longest - cols * max_size) < longest)%Z) /\
  ((max_size < longest)%Z -> (2 * shortest * max_size < longest)%Z ->
   exists e,
     Utils.image2bytes cv fs path max_size = ([ImRead path], Raise e)).
Proof.
  intros Hcv Hfile Hext Hdec Hshape Hrows Hcols longest shortest ext.
  destruct (image2bytes_decoded cv fs path max_size bytes img rows cols
                                Hfile Hext Hdec Hshape) as [Hkeep Hscale].
  cbv zeta in Hkeep, Hscale. fold longest ext in Hkeep, Hscale.
  assert (Hl : (0 < longest)%Z) by (unfold longest; lia).
  destruct (Hcv img rows cols max_size longest Hshape Hrows Hcols Hl)
    as (Hfail & Hok & Hdims).
  cbv zeta in Hfail, Hok, Hdims.
  split; [exact Hkeep|]. split.
  - intros Hgt Hlarge.
    destruct Hok as [img' Himg'];
      [unfold longest, shortest in *; nia
      |unfold longest, shortest in *; nia|].
    destruct (Hdims img' Himg')
      as (rows' & cols' & Hshape' & Hr' & Hc' & Hnr & Hnc).
    exists img', rows', cols'.
    rewrite Hscale by lia. rewrite Himg'.
    repeat split; try assumption.
    unfold longest in *.
    destruct (Z.max_spec rows cols) as [[Hlt E] | [Hle E]];
      rewrite E in *; nia.
  - intros Hgt Hsmall.
    destruct Hfail as [e He].
    { unfold longest, shortest in *.
      destruct (Z.min_spec rows cols) as [[_ E] | [_ E]];
        rewrite E in Hsmall; [left|right]; exact Hsmall. }
    exists e. rewrite Hscale by lia. rewrite He. reflexivity.
Qed.

(** ** The properties on the sample installation *)


Lemma C2_witness :
  Sample.fs "data"
  = Some (OS.Dir ["a.txt"; "sub"; "jpg"; "b.TXT"; "pic.jpg"]) /\
  exists files,
    Utils.find_files_with_suffix Sample.fs "data" (Utils.Str "txt")
    = ([ListDir "data"], Ok files) /\
    files = filter (fun f => Utils.mem (Utils.file_suffix_of f) ["txt"])
                   ["a.txt"; "sub"; "jpg"; "b.TXT"; "pic.jpg"] /\
    (forall f, In f files <->
               In f ["a.txt"; "sub"; "jpg"; "b.TXT"; "pic.jpg"] /\
               matches_suffix ["txt"] f) /\
    (forall f, free_of (Ascii.eqb ".") f ->
               (In f files <->
                In f ["a.txt"; "sub"; "jpg"; "b.TXT"; "pic.jpg"] /\
                In f ["txt"])).
Proof.
  split; [reflexivity|].
  apply (C2_file_finder_exact Sample.fs "data" _ (Utils.Str "txt")).
  reflexivity.
Defined.

Lemma C3_witness :
  Utils.process_email_list Sample.fs "inbox" "txt"
  = ([ListDir "inbox"; ReadText "inbox/list.txt";
      PrintFoundEmails 2 "inbox"],
     Ok ["alice@example.com"; "bob@test.org"]).
Proof.
  apply (C3_address_extractor_scenario Sample.fs "inbox" "list.txt" "txt"
           (list_byte_of_string
              ("Alice <alice@example.com>;" ++ Sample.LF ++
               "notanemail bob@test.org" ++ Sample.LF))).
  - reflexivity.
  - split; [reflexivity|]. right. exists "list". reflexivity.
  - reflexivity.
  - vm_compute. reflexivity.
Defined.

(** The elongated image of the sample: one row of 200 pixels, at a maximum
    of 10 pixels. *)
Lemma C4_elongated_image_fails :
  Utils.image2bytes Sample.cv Cases.fs "wide/strip.png" 10
  = ([ImRead "wide/strip.png"], Raise (Cv2Error "dsize")).
Proof. reflexivity. Qed.

Lemma C4_witness :
  Utils.image2bytes Sample.cv Sample.fs "data/pic.jpg" 3
  = ([ImRead "data/pic.jpg"],
     imencode Sample.cv ".jpg" (3%Z, 2%Z, [x10; x20; x30])) /\
  (exists img' rows' cols',
      resize Sample.cv (3%Z, 2%Z, [x10; x20; x30])
             (truediv Sample.cv 2 3) (truediv Sample.cv 2 3) = Ok img' /\
      Utils.image2bytes Sample.cv Sample.fs "data/pic.jpg" 2
      = ([ImRead "data/pic.jpg"], imencode Sample.cv ".jpg" img') /\
      shape Sample.cv img' = (rows', cols') /\
      Z.max rows' cols' = 2%Z /\
      (Z.abs (rows' * 3 - 3 * 2) < 3)%Z /\
      (Z.abs (cols' * 3 - 2 * 2) < 3)%Z) /\
  (exists e,
      Utils.image2bytes Sample.cv Cases.fs "wide/strip.png" 10
      = ([ImRead "wide/strip.png"], Raise e)).
Proof.
  split; [|split].
  - apply (proj1 (C4_resize_or_fail
                    Sample.cv Sample.fs "data/pic.jpg" 3
                    [x03; x02; x10; x20; x30]
                    (3%Z, 2%Z, [x10; x20; x30]) 3 2
                    sample_resize_contract eq_refl eq_refl eq_refl eq_refl
                    eq_refl eq_refl)).
    cbn. lia.
  - apply (proj1 (proj2 (C4_resize_or_fail
                    Sample.cv Sample.fs "data/pic.jpg" 2
                    [x03; x02; x10; x20; x30]
                    (3%Z, 2%Z, [x10; x20; x30]) 3 2
                    sample_resize_contract eq_refl eq_refl eq_refl eq_refl
                    eq_refl eq_refl))).
    + cbn. lia.
    + cbn. lia.
  - apply (proj2 (proj2 (C4_resize_or_fail
                    Sample.cv Cases.fs "wide/strip.png" 10
                    [x01; xc8; x2a]
                    (1%Z, 200%Z, [x2a]) 1 200
                    sample_resize_contract eq_refl eq_refl eq_refl eq_refl
                    eq_refl eq_refl))).
    + cbn. lia.
    + cbn. lia.
Defined.

Lemma C5_witness :
  Sample.fs "nowhere" = None /\
  Utils.find_files_with_suffix Sample.fs "nowhere" (Utils.Str "txt")
  = ([], Raise (NotFoundError "Folder nowhere")) /\
  Utils.create_message Sample.cv Sample.header_factory Sample.fs "hello"
                       "me@example.com" "you@example.com" "greetings"
                       "nowhere" (Utils.Str "txt") 1024
  = ([], Raise (NotFoundError "Folder nowhere")) /\
  Utils.process_email_list Sample.fs "nowhere" "txt"
  = ([], Raise (NotFoundError "Folder nowhere")).
Proof.
  split; [reflexivity|].
  destruct (C5_missing_folder Sample.cv Sample.header_factory Sample.fs
                              "nowhere" eq_refl)
    as (H1 & H2 & H3).
  split; [apply H1|]. split; [apply H2|apply H3].
Defined.

Lemma C6_witness :
  exists files,
    outcome (Utils.find_files_with_suffix Sample.fs "data"
               (Utils.Lst ["txt"; "jpg"])) = Ok files /\
    Forall2 (fun file att =>
               Mail.subtype att = Utils.file_suffix_of file /\
               final_segment file (Mail.subtype att) /\
               Mail.maintype att = "image")
            files (Mail.attachments Sample.msg).
Proof.
  apply (C6_attachment_declared_type
           Sample.cv Sample.header_factory Sample.fs "hello"
           "me@example.com" "you@example.com"
           "greetings" "data" (Utils.Lst ["txt"; "jpg"]) 2
           (trace Sample.run) Sample.msg).
  vm_compute. reflexivity.
Defined.



Lemma C8_witness :
  snd (Utils.press_Yn_to_continue ["y"; "no"]) = Utils.Waiting /\
  (exists arg,
      snd (Utils.press_Yn_to_continue ["y"; "n"; "Y"]) = Utils.SystemExit arg
      /\ Utils.exit_status arg <> 0%Z) /\
  snd (Utils.press_Yn_to_continue ["y"; "Y"; "n"]) = Utils.Returned ["n"].
Proof.
  destruct C8_confirmation_prompt as (H1 & H2 & H3 & _).
  assert (R : Forall rejected ["y"]).
  { constructor; [split; discriminate|constructor]. }
  split; [|split].
  - apply (H1 ["y"; "no"]).
    constructor; [split; discriminate|].
    constructor; [split; discriminate|constructor].
  - apply (H2 ["y"] ["Y"] R).
  - apply (H3 ["y"] ["n"] R).
Defined.

Lemma C9_witness :
  (exists files,
      Utils.find_files_with_suffix Sample.fs "data"
                                   (Utils.Lst ["txt"; "jpg"])
      = ([ListDir "data"], Ok files) /\ In "jpg" files) /\
  Utils.is_file_image Sample.fs "data/jpg" = ([], Ok false) /\
  In {| Mail.data := [xff; xd8; xff];
        Mail.maintype := "image";
        Mail.subtype := "jpg" |}
     (Mail.attachments Sample.msg).
Proof.
  destruct (C9_dotless_image_name
              Sample.cv Sample.header_factory Sample.fs "data" "jpg"
              ["a.txt"; "sub"; "jpg"; "b.TXT"; "pic.jpg"]
              [xff; xd8; xff] (Utils.Lst ["txt"; "jpg"]) 2)
    as (H1 & H2 & _ & H4).
  - cbn. auto.
  - reflexivity.
  - cbn. auto.
  - cbn. auto.
  - reflexivity.
  - split; [exact H1|]. split; [exact H2|].
    apply (H4 "hello" "me@example.com" "you@example.com" "greetings"
              (trace Sample.run) Sample.msg).
    vm_compute. reflexivity.
Defined.

Lemma C10_witness :
  Utils.image2bytes Sample.cv Sample.fs "data/a.txt" 1024
  = ([], Raise (AssertionError "data/a.txt is not an image")).
Proof.
  apply (C10_image2bytes_rejects_non_image
           Sample.cv Sample.fs "data/a.txt" 1024
           (OS.File (list_byte_of_string "plain text"))).
  - reflexivity.
  - intros ext Hin Hex. apply endswith_spec in Hex.
    cbn in Hin.
    destruct Hin as [<- | [<- | [<- | [<- | [<- | [<- | []]]]]]];
      vm_compute in Hex; discriminate Hex.
Defined.

(** * Further properties of the code *)

(** ** The File Finder beyond the claims *)


Lemma file_suffix_of_dot_free (file : string) :
  dot_free (Utils.file_suffix_of file) = true.
Proof.
  destruct (final_segment_file_suffix_of file) as [H _].
  unfold dot_free. unfold free_of in H. rewrite H. reflexivity.
Qed.

Lemma mem_filter (p : string -> bool) (x : string) (l : list string) :
  p x = true -> Utils.mem x (filter p l) = Utils.mem x l.
Proof.
  intros Hx. unfold Utils.mem. induction l as [|y l IH]; [reflexivity|].
  cbn [filter existsb]. destruct (p y) eqn:Hy.
  - cbn [existsb]. rewrite IH. reflexivity.
  - rewrite IH. destruct (String.eqb_spec x y) as [-> | _]; [|reflexivity].
    rewrite Hx in Hy. discriminate.
Qed.

(** X2: A suffix that contains a dot (such as [tar.gz] or [.txt]) never
    selects anything: the File Finder behaves as if the filter held only its
    dot-free suffixes, and a filter without any dot-free suffix finds
    nothing. *)
Theorem dotted_suffixes_never_match (fs : OS.filesystem) (folder : string)
        (suffix : Utils.str_or_list) :
  Utils.find_files_with_suffix fs folder suffix
  = Utils.find_files_with_suffix
      fs folder (Utils.Lst (filter dot_free (Utils.str2list suffix))) /\
  (forall entries,
      fs folder = Some (OS.Dir entries) ->
      filter dot_free (Utils.str2list suffix) = [] ->
      Utils.find_files_with_suffix fs folder suffix
      = ([ListDir folder], Ok [])).
Proof.
  assert (E : forall entries,
             filter (fun f => Utils.mem (Utils.file_suffix_of f)
                                (Utils.str2list suffix)) entries
             = filter (fun f => Utils.mem (Utils.file_suffix_of f)
                                  (filter dot_free (Utils.str2list suffix)))
                      entries).
  { intros entries. apply filter_ext. intros f. symmetry.
    apply mem_filter, file_suffix_of_dot_free. }
  split.
  - destruct (fs folder) as [[content | entries]|] eqn:H.
    + unfold Utils.find_files_with_suffix, OS.exists_, OS.listdir.
      rewrite H. reflexivity.
    + rewrite !(find_files_with_suffix_dir _ _ _ _ H).
      cbn [Utils.str2list]. rewrite E. reflexivity.
    + rewrite !(find_files_with_suffix_missing _ _ _ H). reflexivity.
  - intros entries H Hnone.
    rewrite (find_files_with_suffix_dir _ _ _ _ H), E, Hnone.
    f_equal. f_equal. clear. induction entries as [|f l IH]; [reflexivity|].
    cbn [filter Utils.mem existsb]. exact IH.
Qed.

(** ** The image classification helper beyond the claims *)

Lemma endswith_any_spec (s : string) (suffixes : list string) :
  Py.endswith_any s suffixes = true <->
  exists ext stem, In ext suffixes /\ s = (stem ++ ext)%string.
Proof.
  unfold Py.endswith_any. rewrite existsb_exists. split.
  - intros [ext [Hin H]]. apply endswith_spec in H. destruct H as [stem H].
    exists ext, stem. auto.
  - intros (ext & stem & Hin & H). exists ext. split; [assumption|].
    apply endswith_spec. exists stem. assumption.
Qed.

(** X3: [is_file_image] fails with a NotFoundError on a missing path; on an
    existing one (file or directory alike) it answers without reading
    anything, and the answer is [True] exactly when the lower-cased path
    ends with one of the six dot-extensions. *)
Theorem is_file_image_spec (fs : OS.filesystem) (path : string) :
  (fs path = None ->
   Utils.is_file_image fs path = ([], Raise (NotFoundError path))) /\
  (forall n, fs path = Some n ->
     exists b,
       Utils.is_file_image fs path = ([], Ok b) /\
       (b = true <->
        exists ext stem,
          In ext Utils.image_extensions /\
          Py.lower path = (stem ++ ext)%string)).
Proof.
  split.
  - intros H. unfold Utils.is_file_image, OS.exists_. rewrite H.
    reflexivity.
  - intros n H. eexists. split; [apply (is_file_image_exists _ _ _ H)|].
    apply endswith_any_spec.
Qed.

Lemma endswith_after_slash (a b ext : string) :
  dot_ext ext = true ->
  Py.endswith (a ++ "/" ++ b) ext = Py.endswith b ext.
Proof.
  intros Hext. destruct ext as [|d ext]; [discriminate|].
  destruct (Ascii.eqb_spec d ".") as [-> | Hd];
    [|cbn in Hext; destruct d as [[] [] [] [] [] [] [] []];
      try discriminate; contradiction].
  cbn [dot_ext] in Hext. apply negb_true_iff in Hext.
  destruct (Py.endswith b (String "." ext)) eqn:Hb.
  - apply endswith_spec in Hb. destruct Hb as [stem ->].
    apply endswith_spec. exists (a ++ "/" ++ stem)%string.
    rewrite !append_assoc. reflexivity.
  - destruct (Py.endswith (a ++ "/" ++ b) (String "." ext)) eqn:Hab;
      [|reflexivity].
    apply endswith_app_cases in Hab. destruct Hab as [H | H].
    + change ("/" ++ b)%string with (String "/" b) in H.
      cbn [Py.endswith] in H. rewrite Hb in H.
      cbn [String.eqb Ascii.eqb Bool.eqb andb orb] in H. discriminate.
    + apply endswith_spec in H. destruct H as [stem H].
      rewrite H in Hext. rewrite !contains_app in Hext.
      cbn in Hext. rewrite orb_true_r in Hext. discriminate.
Qed.

Lemma endswith_any_after_slash (a b : string) (exts : list string) :
  forallb dot_ext exts = true ->
  Py.endswith_any (a ++ "/" ++ b) exts = Py.endswith_any b exts.
Proof.
  unfold Py.endswith_any. induction exts as [|e exts IH]; [reflexivity|].
  cbn [forallb existsb]. intros H. apply andb_true_iff in H.
  destruct H as [He Hs]. rewrite (endswith_after_slash _ _ _ He), (IH Hs).
  reflexivity.
Qed.

Lemma attachment_image_by_name_aux (fs : OS.filesystem)
      (folder file : string) (n : OS.node) :
  OS.startswith_slash file = false ->
  fs (OS.join folder file) = Some n ->
  Utils.is_file_image fs (OS.join folder file)
  = ([], Ok (Py.endswith_any (Py.lower file) Utils.image_extensions)).
Proof.
  intros Hs Hn. rewrite (is_file_image_exists _ _ _ Hn). f_equal. f_equal.
  destruct (join_shape folder file Hs) as [E | [stem E]]; rewrite E.
  - reflexivity.
  - rewrite !lower_app. apply endswith_any_after_slash. reflexivity.
Qed.

(** X4: Inside [create_message] the classification of a file depends on its
    name alone: whatever the attachment folder is called (even [pics.png]),
    the joined path is classified as an image exactly when the lower-cased
    file name ends with one of the six dot-extensions. *)
Theorem attachment_image_by_name (fs : OS.filesystem)
        (folder file : string) (n : OS.node) :
  OS.startswith_slash file = false ->
  fs (OS.join folder file) = Some n ->
  Utils.is_file_image fs (OS.join folder file)
  = ([], Ok (Py.endswith_any (Py.lower file) Utils.image_extensions)).
Proof. exact (attachment_image_by_name_aux fs folder file n). Qed.

(** ** [image2bytes] beyond the claims *)

(** X5: [image2bytes] fails with a NotFoundError on a missing path before
    reading anything.  On an image-named path that is a directory, or a file
    whose contents do not decode, [cv2.imread] is called and returns [None],
    and the function fails on [img.shape]; no bytes are returned. *)
Theorem image2bytes_failures (cv : imaging) (fs : OS.filesystem)
        (path : string) (max_size : Z) :
  (fs path = None ->
   Utils.image2bytes cv fs path max_size
   = ([], Raise (NotFoundError path))) /\
  (Py.endswith_any (Py.lower path) Utils.image_extensions = true ->
   (exists entries, fs path = Some (OS.Dir entries)) \/
   (exists bytes, fs path = Some (OS.File bytes) /\
                  imdecode cv bytes = None) ->
   Utils.image2bytes cv fs path max_size
   = ([ImRead path], Raise (AttributeError "shape"))).
Proof.
  split.
  - intros H. unfold Utils.image2bytes, OS.exists_. rewrite H. reflexivity.
  - intros Hext [[entries H] | [bytes [H Hdec]]]; unfold Utils.image2bytes;
      rewrite (is_file_image_exists _ _ _ H), Hext;
      unfold OS.exists_, Utils.imread; rewrite H; try rewrite Hdec;
      reflexivity.
Qed.

(** X6: On a decodable image file, [image2bytes] compares the longer of the
    two spatial dimensions with [max_size]: up to [max_size] the decoded
    image is encoded as it is; above it, [cv2.resize] is called once with
    the same factor [max_size / longest] for both axes.  What [cv2.resize]
    does with that floating-point factor is the library's business. *)
Lemma image2bytes_resize_decision (cv : imaging) (fs : OS.filesystem)
      (path : string) (max_size : Z) (bytes : list byte) (img : image cv)
      (rows cols : Z) :
  fs path = Some (OS.File bytes) ->
  Py.endswith_any (Py.lower path) Utils.image_extensions = true ->
  imdecode cv bytes = Some img ->
  shape cv img = (rows, cols) ->
  let longest := Z.max rows cols in
  let ext := ("." ++ Utils.file_suffix_of path)%string in
  ((longest <= max_size)%Z ->
   Utils.image2bytes cv fs path max_size
   = ([ImRead path], imencode cv ext img)) /\
  ((longest > max_size)%Z -> longest <> 0%Z ->
   Utils.image2bytes cv fs path max_size
   = ([ImRead path],
      match resize cv img (truediv cv max_size longest)
                   (truediv cv max_size longest) with
      | Ok img' => imencode cv ext img'
      | Raise e => Raise e
      end)).
Proof. exact (image2bytes_decoded cv fs path max_size bytes img rows cols). Qed.

(** ** The Attachment Composer beyond the claims *)

Lemma bind_assoc {A B C} (m : io A) (f : A -> io B) (g : B -> io C) :
  bind (bind m f) g = bind m (fun a => bind (f a) g).
Proof.
  destruct m as [t [a | e]]; [|reflexivity].
  unfold bind at 2 3. unfold bind at 2.
  destruct (f a) as [t1 [b | e1]]; [|reflexivity].
  cbn [bind]. destruct (g b) as [t2 r]. rewrite app_assoc. reflexivity.
Qed.

Lemma bind_ext {A B} (m : io A) (f g : A -> io B) :
  (forall a, f a = g a) -> bind m f = bind m g.
Proof.
  intros H. destruct m as [t [a | e]]; [|reflexivity].
  unfold bind. rewrite H. reflexivity.
Qed.

Section ComposerLoop.

Variable cv : imaging.
Variable fs : OS.filesystem.
Variable folder : string.
Variable max_image_size : Z.

Local Abbreviation turn := (attach_turn cv fs folder max_image_size).
Local Abbreviation attach := (Utils.attach_file cv fs folder max_image_size).

(** One turn of the loop makes the attachment and appends it. *)
Lemma attach_file_turn (msg : Mail.EmailMessage) (file : string) :
  attach msg file = bind (turn file) (fun a => ret (Mail.attach msg a)).
Proof.
  unfold Utils.attach_file, attach_turn, fetch_attachment.
  rewrite !bind_assoc. apply bind_ext. intros is_image.
  apply bind_ext. intros d.
  unfold lift, Mail.add_attachment.
  fold (Utils.file_suffix_of file).
  destruct (Mail.single_line _); reflexivity.
Qed.

Lemma attach_file_turn_ok (msg : Mail.EmailMessage) (file : string) :
  turn_ok (turn file) ->
  attach msg file
  = (trace (turn file), Ok (Mail.attach msg (turned (turn file)))).
Proof.
  intros [a Ha]. rewrite attach_file_turn. unfold turned.
  destruct (turn file) as [t r]. cbn [outcome snd] in Ha. subst r.
  cbn [bind ret trace outcome fst snd]. rewrite app_nil_r. reflexivity.
Qed.

Lemma attach_file_turn_raise (msg : Mail.EmailMessage) (file : string)
      (e : error) :
  outcome (turn file) = Raise e ->
  attach msg file = (trace (turn file), Raise e).
Proof.
  intros He. rewrite attach_file_turn.
  destruct (turn file) as [t r]. cbn [outcome snd] in He. subst r.
  reflexivity.
Qed.

Lemma turn_ok_or_raise (file : string) :
  turn_ok (turn file) \/ exists e, outcome (turn file) = Raise e.
Proof.
  unfold turn_ok. destruct (outcome (turn file)) as [a | e];
    [left; exists a | right; exists e]; reflexivity.
Qed.

Lemma for_each_attach_all (files : list string) :
  Forall (fun g => turn_ok (turn g)) files ->
  forall msg,
    for_each files attach msg
    = (flat_map (fun g => trace (turn g)) files,
       Ok {| Mail.content := Mail.content msg;
             Mail.headers := Mail.headers msg;
             Mail.attachments :=
               Mail.attachments msg ++ map (fun g => turned (turn g)) files
          |}).
Proof.
  induction 1 as [|file files Hfile _ IH]; intros msg.
  - cbn. rewrite app_nil_r. destruct msg; reflexivity.
  - cbn [for_each flat_map map].
    rewrite (attach_file_turn_ok msg file Hfile).
    cbn [bind]. rewrite IH.
    cbn [Mail.attach Mail.content Mail.headers Mail.attachments].
    rewrite <- app_assoc. reflexivity.
Qed.


Lemma for_each_attach_Ok_all (files : list string) :
  forall msg t msg',
    for_each files attach msg = (t, Ok msg') ->
    Forall (fun g => turn_ok (turn g)) files.
Proof.
  induction files as [|file files IH]; intros msg t msg' H.
  - constructor.
  - destruct (turn_ok_or_raise file) as [Hok | [e He]].
    + constructor; [assumption|].
      cbn [for_each] in H. rewrite (attach_file_turn_ok msg file Hok) in H.
      cbn [bind] in H.
      match type of H with
      | (let (_, _) := ?l in _) = _ => destruct l as [t' r] eqn:L
      end.
      inversion H; subst. eapply IH. exact L.
    + cbn [for_each] in H. rewrite (attach_file_turn_raise msg file e He) in H.
      discriminate H.
Qed.

End ComposerLoop.

(** X7: A successful [create_message] fixes the whole message: the three
    header values were accepted, the body is the input text with its lines
    each ended by one line feed, the headers are To, From and Subject in
    that order, each as the header factory renders it, and the attachments
    are those of the matching files, one per file in listing order; the run
    lists the folder, prints the files found and then takes every file
    once, and every turn has made its attachment. *)
Theorem create_message_Ok_shape (cv : imaging) (hf : Mail.header_factory)
        (fs : OS.filesystem)
        (message email_from email_to subject folder : string)
        (suffix : Utils.str_or_list) (max_image_size : Z)
        (t : list event) (msg : Mail.EmailMessage) :
  Utils.create_message cv hf fs message email_from email_to subject folder
                       suffix max_image_size = (t, Ok msg) ->
  valid_headers email_from email_to subject /\
  exists files,
    Utils.find_files_with_suffix fs folder suffix
    = ([ListDir folder], Ok files) /\
    Forall (fun g => turn_ok (attach_turn cv fs folder max_image_size g))
           files /\
    msg = composed hf message email_from email_to subject
                   (map (fun g => turned (attach_turn cv fs folder
                                                      max_image_size g))
                        files) /\
    t = ListDir folder ::
        PrintFoundFiles (List.length files) (Utils.str2list suffix) folder
                        files ::
        flat_map (fun g => trace (attach_turn cv fs folder max_image_size g))
                 files.
Proof.
  intros H. destruct (create_message_Ok_dir _ _ _ _ _ _ _ _ _ _ _ _ H)
    as [V [entries E]].
  split; [exact V|].
  rewrite (create_message_dir cv hf fs _ _ _ _ _ suffix max_image_size _ V E)
    in H.
  eexists. split; [apply (find_files_with_suffix_dir _ _ _ suffix E)|].
  match type of H with (_, outcome ?l) = _ => destruct l as [t' r] eqn:L end.
  cbn [trace outcome fst snd] in H. inversion H; subst.
  pose proof (for_each_attach_Ok_all _ _ _ _ _ _ _ _ L) as Hall.
  rewrite (for_each_attach_all _ _ _ _ _ Hall) in L. inversion L; subst.
  split; [exact Hall|]. split; reflexivity.
Qed.






(** ** The serialization step beyond the claims *)

(** X11: Two messages get the same [raw] record exactly when the [email]
    library serializes them to the same bytes: the encoding loses
    nothing. *)
Theorem message2bytes_injective
        (as_bytes : Mail.EmailMessage -> list byte)
        (m1 m2 : Mail.EmailMessage) :
  Utils.message2bytes as_bytes m1 = Utils.message2bytes as_bytes m2 <->
  as_bytes m1 = as_bytes m2.
Proof.
  unfold Utils.message2bytes. split.
  - intros H. inversion H as [E].
    apply (f_equal list_ascii_of_string) in E.
    rewrite !list_ascii_of_string_of_list_ascii in E.
    apply (f_equal Base64.urlsafe_b64decode) in E.
    rewrite !urlsafe_b64decode_b64encode in E. inversion E. reflexivity.
  - intros ->. reflexivity.
Qed.

(** X12: The [raw] text is safe in a URL: it consists of ASCII letters, digits,
    [-], [_] and the padding [=] only, so it never holds [+] or [/]. *)
Theorem message2bytes_urlsafe
        (as_bytes : Mail.EmailMessage -> list byte)
        (msg : Mail.EmailMessage) :
  exists s,
    Utils.message2bytes as_bytes msg = [("raw", s)] /\
    Forall (fun c => is_urlsafe_char c = true /\
                     c <> "+"%char /\ c <> "/"%char)
           (list_ascii_of_string s).
Proof.
  eexists. split; [reflexivity|].
  rewrite list_ascii_of_string_of_list_ascii.
  eapply Forall_impl; [|apply urlsafe_b64encode_chars].
  intros c Hc. split; [assumption|].
  split; intros ->; discriminate Hc.
Qed.

(** ** The Address Extractor beyond the claims *)

Section CharFacts.

Import Py.

Variable q : ascii -> bool.

Lemma split_by_preserves (p : ascii -> bool) (s : string) :
  contains q s = false ->
  forall f, In f (split_by p s) -> contains q f = false.
Proof.
  induction s as [|c s IH]; cbn [contains split_by]; intros H f Hf.
  - destruct Hf as [<- | []]. reflexivity.
  - apply orb_false_iff in H. destruct H as [Hc Hs]. specialize (IH Hs).
    destruct (p c).
    + destruct Hf as [<- | Hf]; [reflexivity|apply IH, Hf].
    + destruct (split_by p s) as [|h t].
      * destruct Hf as [<- | []]. cbn [contains]. rewrite Hc. reflexivity.
      * destruct Hf as [<- | Hf].
        -- cbn [contains]. rewrite Hc. apply IH. left. reflexivity.
        -- apply IH. right. assumption.
Qed.

Lemma join_preserves (sep : string) (l : list string) :
  contains q sep = false ->
  (forall f, In f l -> contains q f = false) ->
  contains q (join sep l) = false.
Proof.
  intros Hsep. unfold join. induction l as [|x l IH]; intros H.
  - reflexivity.
  - destruct l as [|y l].
    + apply H. left. reflexivity.
    + cbn [String.concat]. rewrite !contains_app.
      rewrite (H x) by (left; reflexivity). rewrite Hsep.
      cbn [orb]. apply IH. intros f Hf. apply H. right. assumption.
Qed.

Lemma remove_preserves (p : ascii -> bool) (s : string) :
  contains q s = false -> contains q (remove p s) = false.
Proof.
  induction s as [|c s IH]; cbn [contains remove]; intros H; [reflexivity|].
  apply orb_false_iff in H. destruct H as [Hc Hs].
  destruct (p c); [apply IH, Hs|].
  cbn [contains]. rewrite Hc. apply IH, Hs.
Qed.

Lemma contains_remove_other (p : ascii -> bool) (s : string) :
  (forall c, q c = true -> p c = false) ->
  contains q (remove p s) = contains q s.
Proof.
  intros H. induction s as [|c s IH]; [reflexivity|].
  cbn [contains remove]. destruct (p c) eqn:Hp.
  - rewrite IH. destruct (q c) eqn:Hq; [|reflexivity].
    rewrite (H c Hq) in Hp. discriminate.
  - cbn [contains]. rewrite IH. reflexivity.
Qed.

Lemma splitlines_preserves (s : string) :
  contains q s = false ->
  forall l, In l (splitlines s) -> contains q l = false.
Proof.
  assert (G : forall n s, String.length s <= n ->
                contains q s = false ->
                forall l, In l (splitlines s) -> contains q l = false).
  { induction n as [|n IH]; intros s0 Hlen H l Hl.
    - destruct s0; [contradiction|cbn in Hlen; lia].
    - destruct s0 as [|c s0]; [contradiction|].
      cbn [contains] in H. apply orb_false_iff in H. destruct H as [Hc Hs].
      cbn [String.length] in Hlen.
      cbn [splitlines] in Hl. destruct (is_linebreak c).
      + assert (Hrest : In l ("" :: splitlines s0) -> contains q l = false).
        { intros [<- | Hin]; [reflexivity|].
          apply (IH s0); [lia|assumption|assumption]. }
        destruct c as [[] [] [] [] [] [] [] []]; try (apply Hrest, Hl).
        destruct s0 as [|d s1]; [apply Hrest, Hl|].
        destruct d as [[] [] [] [] [] [] [] []]; try (apply Hrest, Hl).
        destruct Hl as [<- | Hin]; [reflexivity|].
        cbn [contains] in Hs. apply orb_false_iff in Hs.
        apply (IH s1); [cbn [String.length] in Hlen; lia|apply Hs|assumption].
      + pose proof (IH s0 ltac:(lia) Hs) as IH0.
        destruct (splitlines s0) as [|h t].
        * destruct Hl as [<- | []]. cbn [contains]. rewrite Hc. reflexivity.
        * destruct Hl as [<- | Hin].
          -- cbn [contains]. rewrite Hc. apply IH0. left. reflexivity.
          -- apply IH0. right. assumption. }
  intros H. apply (G (String.length s) s (le_n _) H).
Qed.

Lemma universal_newlines_preserves (s : string) :
  q "010"%char = false ->
  contains q s = false -> contains q (universal_newlines s) = false.
Proof.
  intros Hlf.
  assert (G : forall n s, String.length s <= n ->
                contains q s = false ->
                contains q (universal_newlines s) = false).
  { induction n as [|n IH]; intros s0 Hlen H.
    - destruct s0; [reflexivity|cbn in Hlen; lia].
    - destruct s0 as [|c s0]; [reflexivity|].
      cbn [contains] in H. apply orb_false_iff in H. destruct H as [Hc Hs].
      cbn [String.length] in Hlen.
      assert (Hplain : contains q (String c (universal_newlines s0)) = false).
      { cbn [contains]. rewrite Hc. apply IH; [lia|assumption]. }
      assert (Hcr : contains q (String "010" (universal_newlines s0)) = false).
      { cbn [contains]. rewrite Hlf. apply IH; [lia|assumption]. }
      cbn [universal_newlines].
      destruct c as [[] [] [] [] [] [] [] []]; try exact Hplain.
      destruct s0 as [|d s1]; [exact Hcr|].
      destruct d as [[] [] [] [] [] [] [] []]; try exact Hcr.
      cbn [contains]. rewrite Hlf. cbn [contains] in Hs.
      apply orb_false_iff in Hs. apply IH; [cbn [String.length] in Hlen; lia|].
      apply Hs. }
  apply (G (String.length s) s (le_n _)).
Qed.

End CharFacts.

Lemma contains_remove_self (p : ascii -> bool) (s : string) :
  Py.contains p (Py.remove p s) = false.
Proof.
  induction s as [|c s IH]; [reflexivity|].
  cbn [Py.remove]. destruct (p c) eqn:Hc; [exact IH|].
  cbn [Py.contains]. rewrite Hc. exact IH.
Qed.

Lemma is_upper_lower_char (c : ascii) :
  Py.is_upper (Py.lower_char c) = false.
Proof. destruct c as [[] [] [] [] [] [] [] []]; reflexivity. Qed.

Lemma lower_no_upper (s : string) :
  Py.contains Py.is_upper (Py.lower s) = false.
Proof.
  induction s as [|c s IH]; [reflexivity|].
  cbn [Py.lower Py.contains]. rewrite is_upper_lower_char. exact IH.
Qed.

Lemma at_lower_char (c : ascii) :
  Ascii.eqb "@" (Py.lower_char c) = Ascii.eqb "@" c.
Proof. destruct c as [[] [] [] [] [] [] [] []]; reflexivity. Qed.

Lemma contains_at_lower (s : string) :
  Py.contains (Ascii.eqb "@") (Py.lower s) = Py.contains (Ascii.eqb "@") s.
Proof.
  induction s as [|c s IH]; [reflexivity|].
  cbn [Py.lower Py.contains]. rewrite at_lower_char, IH. reflexivity.
Qed.

Lemma split_ws_preserves (q : ascii -> bool) (s : string) :
  Py.contains q s = false ->
  forall f, In f (Py.split_ws s) -> Py.contains q f = false.
Proof.
  intros H f Hf. unfold Py.split_ws in Hf. apply filter_In in Hf.
  apply (split_by_preserves q Py.is_space s H f), Hf.
Qed.

(** The tokens before the ['@'] filter keep out every character that the
    lower-cased text keeps out, the space that joins the words apart. *)
Lemma tokens_preserve (q : ascii -> bool) (text : string) :
  q " "%char = false ->
  Py.contains q (Py.lower text) = false ->
  forall f,
    In f (Py.split_by Utils.is_delimiter
            (Py.join " " (Py.split_ws (Py.lower text)))) ->
    Py.contains q f = false.
Proof.
  intros Hsp H. apply split_by_preserves. apply join_preserves.
  - cbn [Py.contains]. rewrite Hsp. reflexivity.
  - apply split_ws_preserves, H.
Qed.

Lemma addresses_of_no_at (text : string) :
  Py.contains (Ascii.eqb "@") text = false -> addresses_of text = [].
Proof.
  intros H. unfold addresses_of.
  rewrite <- contains_at_lower in H.
  pose proof (tokens_preserve (Ascii.eqb "@") text eq_refl H) as T.
  induction (Py.split_by Utils.is_delimiter
               (Py.join " " (Py.split_ws (Py.lower text)))) as [|f l IH];
    [reflexivity|].
  cbn [filter]. rewrite (T f) by (left; reflexivity).
  apply IH. intros g Hg. apply T. right. assumption.
Qed.

(** Every address found in a text holds an ['@'] and none of the
    characters the pipeline removes or splits on: no angle bracket, no white
    space, no semicolon, and no upper-case ASCII letter. *)
Lemma addresses_of_invariant (text : string) :
  Forall (fun a =>
            Py.contains (Ascii.eqb "@") a = true /\
            Py.contains Utils.is_angle a = false /\
            Py.contains Utils.is_delimiter a = false /\
            Py.contains Py.is_upper a = false)
         (addresses_of text).
Proof.
  unfold addresses_of. apply Forall_forall. intros a Ha.
  apply in_map_iff in Ha. destruct Ha as (f & <- & Hf).
  apply filter_In in Hf. destruct Hf as [Hf Hat].
  split; [|split; [|split]].
  - rewrite contains_remove_other; [assumption|].
    intros c Hc. apply Ascii.eqb_eq in Hc. subst c. reflexivity.
  - apply contains_remove_self.
  - apply remove_preserves. apply (split_by_fields_free _ _ _ Hf).
  - apply remove_preserves.
    apply (tokens_preserve Py.is_upper text eq_refl (lower_no_upper text) f Hf).
Qed.

(** *** Tokens do not span lines *)

Lemma split_ws_app (a b : string) :
  Py.split_ws (a ++ " " ++ b) = Py.split_ws a ++ Py.split_ws b.
Proof.
  unfold Py.split_ws.
  change (a ++ " " ++ b)%string with (a ++ String " " b)%string.
  rewrite split_by_app by reflexivity. apply filter_app.
Qed.

Lemma join_cons (sep x : string) (l : list string) :
  l <> [] -> Py.join sep (x :: l) = (x ++ sep ++ Py.join sep l)%string.
Proof. destruct l; [contradiction|reflexivity]. Qed.

Lemma append_nil_r (s : string) : (s ++ "")%string = s.
Proof.
  induction s as [|c s IH]; [reflexivity|].
  cbn [String.append]. rewrite IH. reflexivity.
Qed.

Lemma join_app (l1 l2 : list string) :
  l1 <> [] -> l2 <> [] ->
  Py.join " " (l1 ++ l2)
  = (Py.join " " l1 ++ " " ++ Py.join " " l2)%string.
Proof.
  intros H1 H2. induction l1 as [|x l1 IH]; [contradiction|].
  destruct l1 as [|y l1].
  - cbn [app]. rewrite join_cons by assumption. reflexivity.
  - change ((x :: y :: l1) ++ l2) with (x :: (y :: l1) ++ l2).
    rewrite join_cons by discriminate.
    rewrite IH by discriminate.
    rewrite (join_cons " " x (y :: l1)) by discriminate.
    rewrite !append_assoc. reflexivity.
Qed.

Lemma at_tokens_app (l1 l2 : list string) :
  at_tokens (l1 ++ l2) = at_tokens l1 ++ at_tokens l2.
Proof.
  unfold at_tokens. destruct l1 as [|x l1]; [reflexivity|].
  destruct l2 as [|y l2].
  - rewrite app_nil_r. cbn [Py.join String.concat Py.split_by filter
                             Py.contains]. rewrite app_nil_r. reflexivity.
  - rewrite join_app by discriminate.
    change (Py.join " " (x :: l1) ++ " " ++ Py.join " " (y :: l2))%string
      with (Py.join " " (x :: l1) ++ String " " (Py.join " " (y :: l2)))%string.
    rewrite split_by_app by reflexivity. apply filter_app.
Qed.

Lemma lower_join (lines : list string) :
  Py.lower (Py.join " " lines) = Py.join " " (map Py.lower lines).
Proof.
  induction lines as [|x l IH]; [reflexivity|].
  destruct l as [|y l]; [reflexivity|].
  rewrite join_cons by discriminate. rewrite !lower_app, IH.
  cbn [map]. rewrite (join_cons " " (Py.lower x)) by discriminate.
  reflexivity.
Qed.

Lemma split_ws_join (lines : list string) :
  Py.split_ws (Py.join " " lines) = flat_map Py.split_ws lines.
Proof.
  induction lines as [|x l IH]; [reflexivity|].
  destruct l as [|y l].
  - cbn [flat_map]. rewrite app_nil_r. reflexivity.
  - rewrite join_cons by discriminate. rewrite split_ws_app, IH.
    reflexivity.
Qed.

Lemma at_tokens_flat_map {A} (f : A -> list string) (l : list A) :
  at_tokens (flat_map f l) = flat_map (fun x => at_tokens (f x)) l.
Proof.
  induction l as [|x l IH]; [reflexivity|].
  cbn [flat_map]. rewrite at_tokens_app, IH. reflexivity.
Qed.

(** The addresses of lines joined by spaces are the addresses of the lines,
    one line after the other. *)
Lemma addresses_of_join (lines : list string) :
  addresses_of (Py.join " " lines) = flat_map addresses_of lines.
Proof.
  unfold addresses_of. fold (at_tokens (Py.split_ws
                                         (Py.lower (Py.join " " lines)))).
  rewrite lower_join, split_ws_join, flat_map_concat_map, map_map.
  rewrite <- flat_map_concat_map, at_tokens_flat_map.
  induction lines as [|x l IH]; [reflexivity|].
  cbn [flat_map]. rewrite map_app, IH. reflexivity.
Qed.

Lemma join_singletons (emails : list string) :
  map (Py.join " ") (map (fun email => Utils.str2list (Utils.Str email))
                         emails)
  = emails.
Proof.
  rewrite map_map. induction emails as [|e l IH]; [reflexivity|].
  cbn [map]. rewrite IH. reflexivity.
Qed.

(** The pipeline of [process_email_list] after the files are read. *)
Lemma address_pipeline (lines : list string) :
  map (Py.remove Utils.is_angle)
      (filter (Py.contains (Ascii.eqb "@"))
         (List.concat
            (map (Py.split_by Utils.is_delimiter)
               [Py.join " "
                  (Py.split_ws
                     (hd ""
                        (map Py.lower
                           [Py.join " "
                              (map (Py.join " ")
                                 (map (fun email =>
                                         Utils.str2list (Utils.Str email))
                                      lines))])))])))
  = addresses_of (Py.join " " lines).
Proof.
  rewrite join_singletons. cbn [map hd List.concat]. rewrite app_nil_r.
  reflexivity.
Qed.

Section ReadLoop.

Variable fs : OS.filesystem.
Variable folder : string.

Local Abbreviation body :=
  (fun (emails : list string) (file : string) =>
     text <- OS.read_text fs (OS.join folder file) ;;
     ret (emails ++ Py.splitlines text)).

Lemma read_ascii_file (g : string) :
  ascii_file fs (OS.join folder g) ->
  OS.read_text fs (OS.join folder g)
  = ([ReadText (OS.join folder g)],
     Ok (Py.universal_newlines
           (string_of_list_byte (bytes_at fs (OS.join folder g))))).
Proof.
  intros (content & Hg & Hascii). unfold OS.read_text, bytes_at.
  rewrite Hg. unfold free_of in Hascii. rewrite Hascii. reflexivity.
Qed.

Lemma read_loop_all (files : list string) :
  (forall g, In g files -> ascii_file fs (OS.join folder g)) ->
  forall acc,
    for_each files body acc
    = (map (fun g => ReadText (OS.join folder g)) files,
       Ok (acc ++ flat_map (fun g => lines_at fs (OS.join folder g)) files)).
Proof.
  induction files as [|g files IH]; intros H acc.
  - cbn. rewrite app_nil_r. reflexivity.
  - cbn [for_each map flat_map].
    assert (B : body acc g
                = ([ReadText (OS.join folder g)],
                   Ok (acc ++ lines_at fs (OS.join folder g)))).
    { rewrite (read_ascii_file g (H g (or_introl eq_refl))).
      reflexivity. }
    cbv beta in B. rewrite B. cbn [bind].
    rewrite IH by (intros h Hh; apply H; right; assumption).
    rewrite <- app_assoc. reflexivity.
Qed.

End ReadLoop.

Lemma process_email_list_dir (fs : OS.filesystem)
      (folder file_suffix : string) (entries : list string) :
  fs folder = Some (OS.Dir entries) ->
  let files := filter (fun f => Utils.mem (Utils.file_suffix_of f)
                                          [file_suffix]) entries in
  let loop := for_each files
                (fun emails file =>
                   text <- OS.read_text fs (OS.join folder file) ;;
                   ret (emails ++ Py.splitlines text)) [] in
  Utils.process_email_list fs folder file_suffix
  = match loop with
    | (t, Ok lines) =>
        (ListDir folder :: t ++
         [PrintFoundEmails
            (List.length (addresses_of (Py.join " " lines))) folder],
         Ok (addresses_of (Py.join " " lines)))
    | (t, Raise e) => (ListDir folder :: t, Raise e)
    end.
Proof.
  intros E files loop. unfold Utils.process_email_list, OS.exists_.
  rewrite E. cbn [assert_]. rewrite (bind_Ok _ _ [] tt) by reflexivity.
  cbn [app].
  erewrite bind_Ok
    by (apply (find_files_with_suffix_dir fs folder entries
                 (Utils.Str file_suffix) E)).
  cbn [Utils.str2list]. fold files. fold loop.
  destruct loop as [t [lines | e]]; [|reflexivity].
  cbn [bind]. rewrite address_pipeline. reflexivity.
Qed.

Lemma process_email_list_Ok_dir (fs : OS.filesystem)
      (folder file_suffix : string) (t : list event) (r : list string) :
  Utils.process_email_list fs folder file_suffix = (t, Ok r) ->
  exists entries, fs folder = Some (OS.Dir entries).
Proof.
  intros H. destruct (fs folder) as [[content | entries]|] eqn:E.
  - unfold Utils.process_email_list, Utils.find_files_with_suffix,
      OS.exists_, OS.listdir in H.
    rewrite E in H. discriminate H.
  - exists entries. reflexivity.
  - unfold Utils.process_email_list, OS.exists_ in H.
    rewrite E in H. discriminate H.
Qed.

(** X13: On a folder whose matching regular files are ASCII text, whenever
    the Address Extractor returns, every address it returns holds an ['@']
    and is free of angle brackets, white space, semicolons and upper-case
    ASCII letters, and the count it prints is the number of addresses it
    returns. *)
Theorem process_email_list_addresses (fs : OS.filesystem)
        (folder file_suffix : string) (entries : list string)
        (t : list event) (r : list string) :
  fs folder = Some (OS.Dir entries) ->
  (forall g content,
      In g (filter (fun f => Utils.mem (Utils.file_suffix_of f)
                                       [file_suffix]) entries) ->
      fs (OS.join folder g) = Some (OS.File content) ->
      free_of Py.non_ascii (string_of_list_byte content)) ->
  Utils.process_email_list fs folder file_suffix = (t, Ok r) ->
  Forall (fun a =>
            Py.contains (Ascii.eqb "@") a = true /\
            Py.contains Utils.is_angle a = false /\
            Py.contains Utils.is_delimiter a = false /\
            Py.contains Py.is_upper a = false) r /\
  List.last t (ListDir folder) = PrintFoundEmails (List.length r) folder.
Proof.
  intros E _ H.
  rewrite (process_email_list_dir _ _ _ _ E) in H.
  match type of H with
  | match ?l with _ => _ end = _ => destruct l as [t' [lines | e]]
  end; [|discriminate H].
  inversion H; subst. split; [apply addresses_of_invariant|].
  change (ListDir folder :: t' ++ [PrintFoundEmails
            (List.length (addresses_of (Py.join " " lines))) folder])
    with ((ListDir folder :: t') ++ [PrintFoundEmails
            (List.length (addresses_of (Py.join " " lines))) folder]).
  apply last_last.
Qed.

Lemma read_loop_stops (fs : OS.filesystem) (folder : string)
      (pre post : list string) (file : string) (e : error) :
  (forall g, In g pre -> ascii_file fs (OS.join folder g)) ->
  OS.read_text fs (OS.join folder file) = ([], Raise e) ->
  forall acc,
    for_each (pre ++ file :: post)
      (fun emails file =>
         text <- OS.read_text fs (OS.join folder file) ;;
         ret (emails ++ Py.splitlines text)) acc
    = (map (fun g => ReadText (OS.join folder g)) pre, Raise e).
Proof.
  intros Hpre He. induction pre as [|g pre IH]; intros acc.
  - cbn [app for_each map]. rewrite He. reflexivity.
  - cbn [app for_each map].
    rewrite (read_ascii_file fs folder g (Hpre g (or_introl eq_refl))).
    cbn [bind emit ret app].
    rewrite IH by (intros h Hh; apply Hpre; right; assumption).
    reflexivity.
Qed.

(** X16: The Address Extractor stops at the first matching entry that is not a
    readable regular file (a directory named like a text file, or an entry
    that has vanished): it raises the error of [open], after reading the
    ASCII text files before it and none after it, and returns no
    addresses. *)
Theorem process_email_list_unreadable (fs : OS.filesystem)
        (folder file_suffix : string) (entries pre post : list string)
        (file : string) :
  fs folder = Some (OS.Dir entries) ->
  filter (fun f => Utils.mem (Utils.file_suffix_of f) [file_suffix]) entries
  = pre ++ file :: post ->
  (forall g, In g pre -> ascii_file fs (OS.join folder g)) ->
  (forall sub, fs (OS.join folder file) = Some (OS.Dir sub) ->
     Utils.process_email_list fs folder file_suffix
     = (ListDir folder :: map (fun g => ReadText (OS.join folder g)) pre,
        Raise (IsADirectoryError (OS.join folder file)))) /\
  (fs (OS.join folder file) = None ->
     Utils.process_email_list fs folder file_suffix
     = (ListDir folder :: map (fun g => ReadText (OS.join folder g)) pre,
        Raise (FileNotFoundError (OS.join folder file)))).
Proof.
  intros E Hfiles Hpre.
  split; [intros sub Hf | intros Hf];
    rewrite (process_email_list_dir _ _ _ _ E), Hfiles;
    erewrite read_loop_stops;
    try reflexivity; try assumption;
    unfold OS.read_text; rewrite Hf; reflexivity.
Qed.

(** X14: On a directory whose matching entries are all regular files of
    ASCII text, the Address Extractor succeeds; it reads each matching file once, in listing
    order, and returns the addresses of the files' lines, line by line in
    reading order: no address spans two lines and no line affects the
    addresses of another. *)
Theorem process_email_list_per_line (fs : OS.filesystem)
        (folder file_suffix : string) (entries : list string) :
  fs folder = Some (OS.Dir entries) ->
  let files := filter (fun f => Utils.mem (Utils.file_suffix_of f)
                                          [file_suffix]) entries in
  (forall g, In g files -> ascii_file fs (OS.join folder g)) ->
  let lines := flat_map (fun g => lines_at fs (OS.join folder g)) files in
  let found := flat_map addresses_of lines in
  Utils.process_email_list fs folder file_suffix
  = (ListDir folder ::
     map (fun g => ReadText (OS.join folder g)) files ++
     [PrintFoundEmails (List.length found) folder],
     Ok found).
Proof.
  intros E files Hreg lines found.
  rewrite (process_email_list_dir _ _ _ _ E). fold files.
  rewrite (read_loop_all fs folder files Hreg []). cbn [app].
  fold lines. rewrite addresses_of_join. reflexivity.
Qed.

(** X15: When the matching files are ASCII text and none of them holds an
    ['@'], the Address Extractor returns the empty list without error and
    reports 0 addresses. *)
Theorem process_email_list_no_at (fs : OS.filesystem)
        (folder file_suffix : string) (entries : list string) :
  fs folder = Some (OS.Dir entries) ->
  let files := filter (fun f => Utils.mem (Utils.file_suffix_of f)
                                          [file_suffix]) entries in
  (forall g, In g files ->
     exists content,
       fs (OS.join folder g) = Some (OS.File content) /\
       free_of Py.non_ascii (string_of_list_byte content) /\
       free_of (Ascii.eqb "@") (string_of_list_byte content)) ->
  Utils.process_email_list fs folder file_suffix
  = (ListDir folder ::
     map (fun g => ReadText (OS.join folder g)) files ++
     [PrintFoundEmails 0 folder],
     Ok []).
Proof.
  intros E files Hreg.
  rewrite (process_email_list_dir _ _ _ _ E). fold files.
  rewrite (read_loop_all fs folder files)
    by (intros g Hg; destruct (Hreg g Hg) as (c & Hc & Ha & _); exists c;
        split; assumption).
  cbn [app]. rewrite addresses_of_join.
  assert (N : flat_map addresses_of
                (flat_map (fun g => lines_at fs (OS.join folder g)) files)
              = []).
  { clear E. induction files as [|g l IH]; [reflexivity|].
    cbn [flat_map]. rewrite flat_map_app.
    rewrite IH by (intros h Hh; apply Hreg; right; assumption).
    rewrite app_nil_r.
    destruct (Hreg g (or_introl eq_refl)) as (c & Hc & _ & Hfree).
    unfold lines_at, bytes_at. rewrite Hc.
    pose proof (splitlines_preserves (Ascii.eqb "@") _
                  (universal_newlines_preserves (Ascii.eqb "@") _
                     eq_refl Hfree)) as L.
    induction (Py.splitlines
                 (Py.universal_newlines (string_of_list_byte c)))
      as [|x xs IHx]; [reflexivity|].
    cbn [flat_map]. rewrite addresses_of_no_at by (apply L; left; reflexivity).
    apply IHx. intros y Hy. apply L. right. assumption. }
  rewrite N. reflexivity.
Qed.

(** ** The confirmation prompt beyond the claims *)

Section PromptTranscript.

Import Utils.

Lemma press_fst_rejected (inp : string) (stdin : list string) :
  rejected inp ->
  fst (press_Yn_to_continue (inp :: stdin))
  = "Press Y to continue, or n to break" ::
    rejected_echo inp ++ List.tl (fst (press_Yn_to_continue stdin)).
Proof.
  intros H. apply rejected_test in H.
  unfold press_Yn_to_continue at 1. rewrite prompt_loop_eq, H.
  destruct stdin as [|inp' stdin']; [reflexivity|].
  unfold press_Yn_to_continue.
  destruct (prompt_loop inp' stdin') as [out r]. reflexivity.
Qed.

Lemma press_fst_choice (inp : string) (stdin : list string) :
  inp = "Y" \/ inp = "n" ->
  fst (press_Yn_to_continue (inp :: stdin))
  = ["Press Y to continue, or n to break"; ("You pressed " ++ inp)%string].
Proof.
  intros [-> | ->]; unfold press_Yn_to_continue; rewrite prompt_loop_eq;
    reflexivity.
Qed.

Lemma press_SystemExit_inv (stdin : list string) (arg : exit_arg) :
  snd (press_Yn_to_continue stdin) = SystemExit arg ->
  arg = ExitStr "You pressed n, breaking" /\
  exists pre post, stdin = pre ++ "n" :: post /\ Forall rejected pre.
Proof.
  induction stdin as [|inp stdin IH]; [discriminate|].
  destruct (rejected_dec inp) as [-> | [-> | Hr]].
  - rewrite press_Y. discriminate.
  - rewrite press_n. intros H. inversion H; subst. split; [reflexivity|].
    exists [], stdin. split; [reflexivity|constructor].
  - rewrite press_rejected by assumption. intros H.
    destruct (IH H) as (Harg & pre & post & -> & Hpre).
    split; [assumption|]. exists (inp :: pre), post.
    split; [reflexivity|]. constructor; assumption.
Qed.

Lemma press_Waiting_inv (stdin : list string) :
  snd (press_Yn_to_continue stdin) = Waiting -> Forall rejected stdin.
Proof.
  induction stdin as [|inp stdin IH]; [constructor|].
  destruct (rejected_dec inp) as [-> | [-> | Hr]].
  - rewrite press_Y. discriminate.
  - rewrite press_n. discriminate.
  - rewrite press_rejected by assumption. intros H.
    constructor; [assumption|apply IH, H].
Qed.

End PromptTranscript.

(** X17: The transcript of the prompt: after the opening line, every rejected
    line is echoed and answered with the request to try again, and the
    accepted line (["Y"] or ["n"]) is echoed last; nothing is written for
    the lines after it. *)
Theorem press_Yn_transcript (pre post : list string) (choice : string) :
  Forall rejected pre ->
  fst (Utils.press_Yn_to_continue pre)
  = "Press Y to continue, or n to break" :: flat_map rejected_echo pre /\
  (choice = "Y" \/ choice = "n" ->
   fst (Utils.press_Yn_to_continue (pre ++ choice :: post))
   = "Press Y to continue, or n to break" ::
     flat_map rejected_echo pre ++ [("You pressed " ++ choice)%string]).
Proof.
  intros Hpre. split.
  - induction Hpre as [|inp pre Hinp _ IH]; [reflexivity|].
    rewrite press_fst_rejected by assumption. rewrite IH. reflexivity.
  - intros Hc. induction Hpre as [|inp pre Hinp _ IH].
    + apply press_fst_choice, Hc.
    + cbn [app]. rewrite press_fst_rejected by assumption. rewrite IH.
      cbn [List.tl flat_map]. rewrite <- app_assoc. reflexivity.
Qed.

(** X18: The prompt ends the process only on an ["n"] line that follows rejected
    lines, always with the same message and exit status 1, and it is left
    waiting exactly when no line so far is ["Y"] or ["n"]. *)
Theorem press_Yn_exit_only_on_n (stdin : list string) :
  (forall arg,
      snd (Utils.press_Yn_to_continue stdin) = Utils.SystemExit arg ->
      arg = Utils.ExitStr "You pressed n, breaking" /\
      Utils.exit_status arg = 1%Z /\
      exists pre post, stdin = pre ++ "n" :: post /\ Forall rejected pre) /\
  (snd (Utils.press_Yn_to_continue stdin) = Utils.Waiting <->
   Forall rejected stdin).
Proof.
  split.
  - intros arg H. destruct (press_SystemExit_inv _ _ H) as [-> Hex].
    split; [reflexivity|]. split; [reflexivity|exact Hex].
  - split; [apply press_Waiting_inv|].
    intros Hall. rewrite <- (app_nil_r stdin), press_skip by assumption.
    reflexivity.
Qed.

(** ** Where the File Finder and the image classifier disagree on case *)

(** X19: A file whose extension is an image extension in another case (such as
    [one.PNG]) is selected by the File Finder only through the suffix in
    exactly that case, yet it is classified as an image; and the suffix that
    [image2bytes] takes from the path for the encoder is the extension in
    its original case. *)
Theorem image_extension_case (fs : OS.filesystem)
        (folder stem seg : string) (entries : list string)
        (suffix : Utils.str_or_list) (n : OS.node) :
  let file := (stem ++ "." ++ seg)%string in
  free_of (Ascii.eqb ".") seg ->
  In (Py.lower ("." ++ seg)) Utils.image_extensions ->
  OS.startswith_slash file = false ->
  fs folder = Some (OS.Dir entries) ->
  fs (OS.join folder file) = Some n ->
  (exists files,
      Utils.find_files_with_suffix fs folder suffix
      = ([ListDir folder], Ok files) /\
      (In file files <-> In file entries /\ In seg (Utils.str2list suffix)))
  /\
  Utils.is_file_image fs (OS.join folder file) = ([], Ok true) /\
  Utils.file_suffix_of (OS.join folder file) = seg.
Proof.
  intros file Hfree Hext Hs Hdir Hn.
  assert (Hseg : Utils.file_suffix_of file = seg).
  { apply file_suffix_of_final_segment. split; [assumption|].
    right. exists stem. reflexivity. }
  split; [|split].
  - eexists. split; [apply (find_files_with_suffix_dir _ _ _ suffix Hdir)|].
    rewrite filter_In, Hseg, mem_In. reflexivity.
  - rewrite (attachment_image_by_name_aux fs folder file n Hs Hn).
    f_equal. f_equal. apply endswith_any_spec.
    exists (Py.lower ("." ++ seg)), (Py.lower stem).
    split; [assumption|]. unfold file. apply lower_app.
  - apply file_suffix_of_final_segment. split; [assumption|].
    right. destruct (join_shape folder file Hs) as [E | [pre E]]; rewrite E.
    + exists stem. reflexivity.
    + exists (pre ++ "/" ++ stem)%string. unfold file.
      rewrite !append_assoc. reflexivity.
Qed.

(** ** The further properties on the sample folders *)


Lemma dotted_suffixes_never_match_witness :
  Utils.find_files_with_suffix Sample.fs "data" (Utils.Str ".txt")
  = ([ListDir "data"], Ok []).
Proof.
  apply (proj2 (dotted_suffixes_never_match Sample.fs "data"
                  (Utils.Str ".txt"))
               ["a.txt"; "sub"; "jpg"; "b.TXT"; "pic.jpg"]);
    reflexivity.
Defined.

Lemma is_file_image_spec_witness :
  Utils.is_file_image Sample.fs "nowhere/pic.jpg"
  = ([], Raise (NotFoundError "nowhere/pic.jpg")) /\
  exists b,
    Utils.is_file_image Cases.fs "album/shots.png" = ([], Ok b) /\
    (b = true <->
     exists ext stem,
       In ext Utils.image_extensions /\
       Py.lower "album/shots.png" = (stem ++ ext)%string).
Proof.
  split.
  - apply (proj1 (is_file_image_spec Sample.fs "nowhere/pic.jpg")).
    reflexivity.
  - apply (proj2 (is_file_image_spec Cases.fs "album/shots.png")
                 (OS.Dir [])).
    reflexivity.
Defined.

Lemma attachment_image_by_name_witness :
  Utils.is_file_image Cases.fs (OS.join "album" "one.PNG") = ([], Ok true).
Proof.
  apply (attachment_image_by_name Cases.fs "album" "one.PNG"
           (OS.File [x02; x04; x61; x62]));
    reflexivity.
Defined.

Lemma image2bytes_failures_witness :
  Utils.image2bytes Sample.cv Cases.fs "nowhere.png" 1024
  = ([], Raise (NotFoundError "nowhere.png")) /\
  Utils.image2bytes Sample.cv Cases.fs "album/shots.png" 1024
  = ([ImRead "album/shots.png"], Raise (AttributeError "shape")) /\
  Utils.image2bytes Sample.cv Cases.fs "album/broken.gif" 1024
  = ([ImRead "album/broken.gif"], Raise (AttributeError "shape")).
Proof.
  split; [|split].
  - apply (proj1 (image2bytes_failures Sample.cv Cases.fs "nowhere.png"
                    1024)).
    reflexivity.
  - apply (proj2 (image2bytes_failures Sample.cv Cases.fs
                    "album/shots.png" 1024)).
    + reflexivity.
    + left. exists []. reflexivity.
  - apply (proj2 (image2bytes_failures Sample.cv Cases.fs
                    "album/broken.gif" 1024)).
    + reflexivity.
    + right. exists [x47]. split; reflexivity.
Defined.

(** X6 on the sample image, at a maximum of 3 and of 2 pixels. *)
Lemma image2bytes_resize_decision_witness :
  Utils.image2bytes Sample.cv Sample.fs "data/pic.jpg" 3
  = ([ImRead "data/pic.jpg"],
     imencode Sample.cv ".jpg" (3%Z, 2%Z, [x10; x20; x30])) /\
  Utils.image2bytes Sample.cv Sample.fs "data/pic.jpg" 2
  = ([ImRead "data/pic.jpg"],
     match resize Sample.cv (3%Z, 2%Z, [x10; x20; x30])
                  (truediv Sample.cv 2 3) (truediv Sample.cv 2 3) with
     | Ok img' => imencode Sample.cv ".jpg" img'
     | Raise e => Raise e
     end).
Proof.
  split.
  - apply (proj1 (image2bytes_resize_decision
                    Sample.cv Sample.fs "data/pic.jpg" 3
                    [x03; x02; x10; x20; x30]
                    (3%Z, 2%Z, [x10; x20; x30]) 3 2
                    eq_refl eq_refl eq_refl eq_refl)).
    cbn. lia.
  - apply (proj2 (image2bytes_resize_decision
                    Sample.cv Sample.fs "data/pic.jpg" 2
                    [x03; x02; x10; x20; x30]
                    (3%Z, 2%Z, [x10; x20; x30]) 3 2
                    eq_refl eq_refl eq_refl eq_refl)).
    + cbn. lia.
    + cbn. lia.
Defined.

Lemma create_message_Ok_shape_witness :
  valid_headers "me@example.com" "you@example.com" "greetings" /\
  exists files,
    Utils.find_files_with_suffix Sample.fs "data" (Utils.Lst ["txt"; "jpg"])
    = ([ListDir "data"], Ok files) /\
    Forall (fun g => turn_ok (attach_turn Sample.cv Sample.fs "data" 2 g))
           files /\
    Sample.msg
    = composed Sample.header_factory "hello" "me@example.com"
               "you@example.com" "greetings"
               (map (fun g => turned (attach_turn Sample.cv Sample.fs
                                                  "data" 2 g)) files) /\
    trace Sample.run
    = ListDir "data" ::
      PrintFoundFiles (List.length files) ["txt"; "jpg"] "data" files ::
      flat_map (fun g => trace (attach_turn Sample.cv Sample.fs "data" 2 g))
               files.
Proof.
  apply (create_message_Ok_shape
           Sample.cv Sample.header_factory Sample.fs "hello"
           "me@example.com" "you@example.com"
           "greetings" "data" (Utils.Lst ["txt"; "jpg"]) 2
           (trace Sample.run) Sample.msg).
  vm_compute. reflexivity.
Defined.





Lemma message2bytes_injective_witness :
  Utils.message2bytes (Mime.as_bytes Sample.header_factory) Sample.msg
  <> Utils.message2bytes (Mime.as_bytes Sample.header_factory) Mail.new.
Proof.
  intros H.
  apply (proj1 (message2bytes_injective
                  (Mime.as_bytes Sample.header_factory) Sample.msg
                  Mail.new)) in H.
  vm_compute in H. discriminate H.
Defined.

Lemma process_email_list_addresses_witness :
  Forall (fun a =>
            Py.contains (Ascii.eqb "@") a = true /\
            Py.contains Utils.is_angle a = false /\
            Py.contains Utils.is_delimiter a = false /\
            Py.contains Py.is_upper a = false)
         ["carol@example.org"; "dave@example.org"; "erin@example.net"] /\
  List.last [ListDir "letters"; ReadText "letters/first.txt";
             ReadText "letters/second.txt"; PrintFoundEmails 3 "letters"]
            (ListDir "letters")
  = PrintFoundEmails 3 "letters".
Proof.
  apply (process_email_list_addresses
           Cases.fs "letters" "txt"
           ["first.txt"; "second.txt"; "third.md"]).
  - reflexivity.
  - intros g content [<- | [<- | []]] H; inversion H; reflexivity.
  - vm_compute. reflexivity.
Defined.

Lemma process_email_list_per_line_witness :
  Utils.process_email_list Cases.fs "letters" "txt"
  = ([ListDir "letters"; ReadText "letters/first.txt";
      ReadText "letters/second.txt"; PrintFoundEmails 3 "letters"],
     Ok ["carol@example.org"; "dave@example.org"; "erin@example.net"]).
Proof.
  rewrite (process_email_list_per_line
             Cases.fs "letters" "txt"
             ["first.txt"; "second.txt"; "third.md"] eq_refl).
  - vm_compute. reflexivity.
  - intros g [<- | [<- | []]]; eexists; split; reflexivity.
Defined.

Lemma process_email_list_no_at_witness :
  Utils.process_email_list Cases.fs "album" "txt"
  = ([ListDir "album"; ReadText "album/notes.txt";
      PrintFoundEmails 0 "album"], Ok []).
Proof.
  apply (process_email_list_no_at
           Cases.fs "album" "txt"
           ["one.PNG"; "notes.txt"; "broken.gif"; "shots.png"] eq_refl).
  intros g [<- | []]. eexists. repeat split.
Defined.

Lemma process_email_list_unreadable_witness :
  Utils.process_email_list Cases.fs "mixed" "txt"
  = ([ListDir "mixed"; ReadText "mixed/a.txt"],
     Raise (IsADirectoryError "mixed/sub.txt")).
Proof.
  assert (H : forall g, In g ["a.txt"] ->
               ascii_file Cases.fs (OS.join "mixed" g))
    by (intros g [<- | []]; eexists; split; reflexivity).
  apply (proj1 (process_email_list_unreadable
                  Cases.fs "mixed" "txt" ["a.txt"; "sub.txt"; "z.txt"]
                  ["a.txt"] ["z.txt"] "sub.txt" eq_refl eq_refl H) []).
  reflexivity.
Defined.

Lemma press_Yn_transcript_witness :
  fst (Utils.press_Yn_to_continue ["y"; "no"; "Y"; "later"])
  = ["Press Y to continue, or n to break";
     "You pressed y"; "You did not press Y or n, try again";
     "You pressed no"; "You did not press Y or n, try again";
     "You pressed Y"].
Proof.
  assert (R : Forall rejected ["y"; "no"])
    by (repeat constructor; discriminate).
  apply (proj2 (press_Yn_transcript ["y"; "no"] ["later"] "Y" R)).
  left. reflexivity.
Defined.

Lemma press_Yn_exit_only_on_n_witness :
  snd (Utils.press_Yn_to_continue ["maybe"; "N"]) = Utils.Waiting.
Proof.
  apply (proj2 (proj2 (press_Yn_exit_only_on_n ["maybe"; "N"]))).
  repeat constructor; discriminate.
Defined.

Lemma image_extension_case_witness :
  (exists files,
      Utils.find_files_with_suffix Cases.fs "album" (Utils.Str "png")
      = ([ListDir "album"], Ok files) /\
      (In "one.PNG" files <->
       In "one.PNG" ["one.PNG"; "notes.txt"; "broken.gif"; "shots.png"] /\
       In "PNG" ["png"])) /\
  Utils.is_file_image Cases.fs "album/one.PNG" = ([], Ok true) /\
  Utils.file_suffix_of "album/one.PNG" = "PNG".
Proof.
  apply (image_extension_case
           Cases.fs "album" "one" "PNG"
           ["one.PNG"; "notes.txt"; "broken.gif"; "shots.png"]
           (Utils.Str "png") (OS.File [x02; x04; x61; x62])).
  - reflexivity.
  - cbn. auto.
  - reflexivity.
  - reflexivity.
  - reflexivity.
Defined.
